(** * intel_gpu_top: a shallow embedding of the sampler and its renderers

    The definitions below follow [tools/intel_gpu_top.c].  Unsigned 64-bit
    counters are integers in [Z] with the wrap-around written out, C
    [double]s are IEEE-754 binary64 values ([spec_float] with precision 53
    and maximal exponent 1024), C strings are [string]s, and the file-scope
    variables of the renderers are threaded explicitly. *)

From Stdlib Require Import ZArith List Bool Lia Ascii String DecimalString.
From Stdlib Require Import Permutation Sorted.
From Stdlib Require Import Floats.SpecFloat.
Import ListNotations.

Local Open Scope Z_scope.

(** ** Machine integers *)

Definition u64 (z : Z) : Z := z mod 2 ^ 64.
Definition u32 (z : Z) : Z := z mod 2 ^ 32.

(** Conversion of an [unsigned int] to [int] (two's complement). *)
Definition to_int (z : Z) : Z :=
  let w := u32 z in if w <? 2 ^ 31 then w else w - 2 ^ 32.

(** ** C doubles *)

Definition double := spec_float.

Definition prec64 : Z := 53.
Definition emax64 : Z := 1024.

Definition dmul : double -> double -> double := SFmul prec64 emax64.
Definition ddiv : double -> double -> double := SFdiv prec64 emax64.
Definition deqb : double -> double -> bool := SFeqb.
Definition dltb : double -> double -> bool := SFltb.
Definition dleb : double -> double -> bool := SFleb.

(** Conversion of an integer to [double], rounding to nearest even. *)
Definition of_Z (z : Z) : double := binary_normalize prec64 emax64 z 0 false.

Definition dzero : double := S754_zero false.
Definition d1 : double := Eval vm_compute in of_Z 1.
Definition d100 : double := Eval vm_compute in of_Z 100.
Definition d1e3 : double := Eval vm_compute in of_Z 1000.
Definition d1e9 : double := Eval vm_compute in of_Z 1000000000.

(** A value that is neither a NaN nor negative (zero of either sign
    excluded only when negative). *)
Definition nonneg (x : double) : bool :=
  match x with
  | S754_nan => false
  | S754_zero s | S754_infinity s | S754_finite s _ _ => negb s
  end.

(** A strictly positive finite value. *)
Definition pos_finite (x : double) : bool :=
  match x with
  | S754_finite false _ _ => true
  | _ => false
  end.

(** ** Counters *)

Record pmu_pair := { cur : Z; prev : Z }.

Record pmu_counter := {
  type : Z;
  config : Z;
  idx : Z;
  val : pmu_pair;
  scale : double;
  units : string;
  present : bool
}.

(** ** pmu_calc *)

Definition pmu_calc (p : pmu_pair) (d t s : double) : double :=
  let v := of_Z (u64 (cur p - prev p)) in
  let v := ddiv v d in
  let v := ddiv v t in
  let v := dmul v s in
  if deqb s d100 && dltb d100 v then d100 else v.


(** ** Constants of the i915 PMU interface

    [igt_perf.h] and the kernel header it includes are not among the sources
    at hand; the layout constants are taken from section 6 of the
    specification. *)

(** Modelled from the spec: [I915_PMU_SAMPLE_BITS], the offset of the
    instance field ("bit 8..15: instance id"). *)
Definition I915_PMU_SAMPLE_BITS : Z := 8.

(** Modelled from the spec: [I915_PMU_SAMPLE_INSTANCE_BITS]
    ("INSTANCE_BITS = 8"). *)
Definition I915_PMU_SAMPLE_INSTANCE_BITS : Z := 8.

(** Modelled from the spec: [I915_PMU_CLASS_SHIFT] ("CLASS_SHIFT = 16"). *)
Definition I915_PMU_CLASS_SHIFT : Z := 16.

(** Modelled from the spec: [__I915_PMU_OTHER(x)], whose base is
    "OTHER_BASE = 1<<16". *)
Definition __I915_PMU_OTHER (x : Z) : Z := Z.shiftl 1 16 + x.

(** Modelled from the spec: the configs of the four "special counters
    (IRQ, freq_req, freq_act, RC6) whose configs are enumerated constants"
    above the base; the numbering is that of the kernel interface. *)
Definition I915_PMU_ACTUAL_FREQUENCY : Z := __I915_PMU_OTHER 0.
Definition I915_PMU_REQUESTED_FREQUENCY : Z := __I915_PMU_OTHER 1.
Definition I915_PMU_INTERRUPTS : Z := __I915_PMU_OTHER 2.
Definition I915_PMU_RC6_RESIDENCY : Z := __I915_PMU_OTHER 3.

(** Modelled from the spec: the engine classes of the glossary (Render,
    Blitter, Video, VideoEnhance), numbered as the kernel interface does. *)
Definition I915_ENGINE_CLASS_RENDER : Z := 0.
Definition I915_ENGINE_CLASS_COPY : Z := 1.
Definition I915_ENGINE_CLASS_VIDEO : Z := 2.
Definition I915_ENGINE_CLASS_VIDEO_ENHANCE : Z := 3.

(** [errno] values and [dirent] types used by discovery. *)
Definition ENOENT : Z := 2.
Definition EINVAL : Z := 22.
Definition ERANGE : Z := 34.
Definition ENAMETOOLONG : Z := 36.
Definition DT_REG : Z := 8.

Definition UINT64_MAX : Z := 2 ^ 64 - 1.

(** ** Engines *)

Record engine := {
  name : string;
  display_name : string;
  short_name : string;
  class : Z;
  instance : Z;
  num_counters : Z;
  busy : pmu_counter;
  wait : pmu_counter;
  sema : pmu_counter
}.

Record engine_class := {
  ec_class : Z;
  ec_name : string;
  ec_num_engines : Z
}.

(** [struct engines]; the trailing array of engines is the list
    [engine_tab], and [num_engines] is its length. *)
Record engines := {
  num_classes : Z;
  class_tab : list engine_class;
  es_num_counters : Z;
  fd : Z;
  ts : pmu_pair;
  rapl_fd : Z;
  r_gpu : pmu_counter;
  r_pkg : pmu_counter;
  num_rapl : Z;
  imc_fd : Z;
  imc_reads : pmu_counter;
  imc_writes : pmu_counter;
  num_imc : Z;
  freq_req : pmu_counter;
  freq_act : pmu_counter;
  irq : pmu_counter;
  rc6 : pmu_counter;
  discrete : bool;
  device : string;
  engine_tab : list engine
}.

Definition num_engines (es : engines) : Z := Z.of_nat (List.length (engine_tab es)).

(** A counter, an engine and an engine table after [memset(.., 0, ..)]. *)
Definition pair0 : pmu_pair := {| cur := 0; prev := 0 |}.

Definition pmu0 : pmu_counter :=
  {| type := 0; config := 0; idx := 0; val := pair0; scale := dzero;
     units := EmptyString; present := false |}.

Definition engine0 : engine :=
  {| name := EmptyString; display_name := EmptyString;
     short_name := EmptyString; class := 0; instance := 0; num_counters := 0;
     busy := pmu0; wait := pmu0; sema := pmu0 |}.

Definition engines0 : engines :=
  {| num_classes := 0; class_tab := []; es_num_counters := 0; fd := 0;
     ts := pair0; rapl_fd := 0; r_gpu := pmu0; r_pkg := pmu0; num_rapl := 0;
     imc_fd := 0; imc_reads := pmu0; imc_writes := pmu0; num_imc := 0;
     freq_req := pmu0; freq_act := pmu0; irq := pmu0; rc6 := pmu0;
     discrete := false; device := EmptyString; engine_tab := [] |}.

(** Field updates. *)
Definition set_val (c : pmu_counter) (v : pmu_pair) : pmu_counter :=
  {| type := type c; config := config c; idx := idx c; val := v;
     scale := scale c; units := units c; present := present c |}.

Definition set_config (c : pmu_counter) (cfg : Z) : pmu_counter :=
  {| type := type c; config := cfg; idx := idx c; val := val c;
     scale := scale c; units := units c; present := present c |}.

Definition set_opened (c : pmu_counter) (i : Z) : pmu_counter :=
  {| type := type c; config := config c; idx := i; val := val c;
     scale := scale c; units := units c; present := true |}.

Definition set_counters (e : engine) (n : Z) (b w s : pmu_counter) : engine :=
  {| name := name e; display_name := display_name e;
     short_name := short_name e; class := class e; instance := instance e;
     num_counters := n; busy := b; wait := w; sema := s |}.

(** ** The sysfs tree and the C library *)

Record dirent := { d_type : Z; d_name : string }.

(** What [pmu_parse] finds below one sysfs directory: the [type] file and,
    per event name, the [events/<name>], [.scale] and [.unit] files as
    [fscanf] converts them ([None]: no file, or no conversion). *)
Record sysfs_dir := {
  sd_type : option Z;
  sd_event : string -> option Z;
  sd_scale : string -> option double;
  sd_unit : string -> option string
}.

(** Result of one [read] on a perf descriptor. *)
Inductive read_result :=
| ReadFail
| ReadBytes (bs : list Z).

(** Result of [poll] on standard input followed by the reads of the pending
    characters. *)
Inductive poll_result :=
| PollError
| PollTimeout
| PollKeys (keys : list ascii).

(** The environment of the program: file contents, directory listings and the
    answers of the kernel, the latter indexed by the number of earlier calls;
    [os_fmt_f_len p v] is the number of characters that the C library prints
    for [v] under the format ["%.*f"] with precision [p]. *)
Record os := {
  os_readdir : string -> option (list dirent);
  os_file : string -> option string;
  os_opendir : string -> option sysfs_dir;
  os_perf_type_id : string -> Z;
  os_perf_open : nat -> Z -> Z -> Z -> Z;
  os_read : nat -> Z -> Z -> read_result;
  os_sigint : nat -> bool;
  os_poll : nat -> poll_result;
  os_winsize : nat -> option (Z * Z);
  os_fmt_f_len : Z -> double -> Z
}.

(** Decimal rendering of ["%u"]. *)
Definition utoa (z : Z) : string :=
  DecimalString.NilZero.string_of_uint (N.to_uint (Z.to_N z)).

(** [index(buf, c)]: the suffix of [buf] that starts at the first [c]. *)
Fixpoint c_index (buf : string) (c : ascii) : option string :=
  match buf with
  | EmptyString => None
  | String a rest => if Ascii.eqb a c then Some buf else c_index rest c
  end.

Definition digit_val (c : ascii) : option Z :=
  let n := Z.of_N (N_of_ascii c) in
  if (48 <=? n) && (n <=? 57) then Some (n - 48)
  else if (97 <=? n) && (n <=? 102) then Some (n - 87)
  else if (65 <=? n) && (n <=? 70) then Some (n - 55)
  else None.

Fixpoint parse_digits (base : Z) (s : string) (acc : Z) : Z :=
  match s with
  | EmptyString => acc
  | String c rest =>
      match digit_val c with
      | Some d => if d <? base then parse_digits base rest (acc * base + d)
                  else acc
      | None => acc
      end
  end.

(** [strtoul(p, NULL, 0)] on a string that starts with the digit 0: a
    hexadecimal number after ["0x"], an octal number otherwise, saturated
    at [ULONG_MAX]. *)
Definition strtoul0 (p : string) : Z :=
  let v :=
    match p with
    | String _ (String x (String h rest)) =>
        if (Ascii.eqb x "x" || Ascii.eqb x "X")%bool then
          match digit_val h with
          | Some _ => parse_digits 16 (String h rest) 0
          | None => 0
          end
        else parse_digits 8 p 0
    | _ => parse_digits 8 p 0
    end in
  Z.min v UINT64_MAX.

Definition str_append3 (a b c : string) : string := (a ++ b ++ c)%string.

(** ** get_pmu_config *)

Definition get_pmu_config (k : os) (nm counter : string) : Z :=
  let full := str_append3 nm "-" counter in
  if (String.length full =? 128)%nat then UINT64_MAX
  else
    let buf := substring 0 127 full in
    match os_file k buf with
    | None => UINT64_MAX
    | Some content =>
        let got := substring 0 128 content in
        if (String.length got =? 0)%nat then UINT64_MAX
        else match c_index got "0" with
             | None => UINT64_MAX
             | Some p => strtoul0 p
             end
    end.

(** ** Engine names *)

Definition class_display_name (cls : Z) : string :=
  if cls =? I915_ENGINE_CLASS_RENDER then "Render/3D"
  else if cls =? I915_ENGINE_CLASS_COPY then "Blitter"
  else if cls =? I915_ENGINE_CLASS_VIDEO then "Video"
  else if cls =? I915_ENGINE_CLASS_VIDEO_ENHANCE then "VideoEnhance"
  else "[unknown]".

Definition class_short_name (cls : Z) : string :=
  if cls =? I915_ENGINE_CLASS_RENDER then "RCS"
  else if cls =? I915_ENGINE_CLASS_COPY then "BCS"
  else if cls =? I915_ENGINE_CLASS_VIDEO then "VCS"
  else if cls =? I915_ENGINE_CLASS_VIDEO_ENHANCE then "VECS"
  else "UNKN".

(** ** engine_cmp and qsort *)

Definition engine_cmp (a b : engine) : Z :=
  if negb (class a =? class b) then to_int (class a - class b)
  else to_int (instance a - instance b).

(** [qsort] of the C library, as an insertion sort driven by the
    comparison function: the result is an ordered rearrangement of the
    array, which is all that the C library promises. *)
Fixpoint qsort_insert {A : Type} (cmp : A -> A -> Z) (x : A) (l : list A)
  : list A :=
  match l with
  | [] => [x]
  | y :: l' => if cmp x y <=? 0 then x :: y :: l'
               else y :: qsort_insert cmp x l'
  end.

Fixpoint qsort {A : Type} (cmp : A -> A -> Z) (l : list A) : list A :=
  match l with
  | [] => []
  | x :: l' => qsort_insert cmp x (qsort cmp l')
  end.

(** ** discover_engines *)

Definition is_igpu (x : string) : bool := String.eqb x "i915".

Definition engine_class_of_config (c : Z) : Z :=
  u32 (Z.shiftr (Z.land c (__I915_PMU_OTHER 0 - 1)) I915_PMU_CLASS_SHIFT).

Definition engine_instance_of_config (c : Z) : Z :=
  u32 (Z.land (Z.shiftr c I915_PMU_SAMPLE_BITS)
              (Z.shiftl 1 I915_PMU_SAMPLE_INSTANCE_BITS - 1)).

(** What one iteration of the [readdir] loop does with a directory entry. *)
Inductive scan_result :=
| ScanSkip
| ScanError (errno : Z)
| ScanEngine (e : engine).

Definition ends_with_busy (buf : string) : bool :=
  let n := String.length buf in
  String.eqb (substring (n - 5) 5 buf) "-busy".

Definition scan_dirent (k : os) (dent : dirent) : scan_result :=
  if negb (d_type dent =? DT_REG) then ScanSkip
  else if (256 <=? String.length (d_name dent))%nat then ScanError ENAMETOOLONG
  else
    let buf := d_name dent in
    if (String.length buf <? 5 + 4)%nat then ScanSkip
    else if negb (ends_with_busy buf) then ScanSkip
    else
      let nm := substring 0 (String.length buf - 5) buf in
      let cfg := get_pmu_config k nm "busy" in
      if cfg =? UINT64_MAX then ScanError ENOENT
      else
        let cls := engine_class_of_config cfg in
        let inst := engine_instance_of_config cfg in
        ScanEngine
          {| name := nm;
             display_name :=
               str_append3 (class_display_name cls) "/" (utoa inst);
             short_name :=
               str_append3 (class_short_name cls) "/" (utoa inst);
             class := cls; instance := inst; num_counters := 0;
             busy := set_config pmu0 cfg; wait := pmu0; sema := pmu0 |}.

(** The [while ((dent = readdir(d)) != NULL)] loop: the engines found so
    far and the final value of [ret]. *)
Fixpoint readdir_loop (k : os) (dents : list dirent) (acc : list engine)
  : Z * list engine :=
  match dents with
  | [] => (0, acc)
  | dent :: rest =>
      match scan_dirent k dent with
      | ScanSkip => readdir_loop k rest acc
      | ScanError errno => (errno, acc)
      | ScanEngine e => readdir_loop k rest (acc ++ [e])
      end
  end.

Definition sysfs_root (dev : string) : string :=
  str_append3 "/sys/devices/" dev "/events".

(** [discover_engines]: [None] is the NULL result.  Memory allocation is
    taken to succeed. *)
Definition discover_engines (k : os) (dev : string) : option engines :=
  match os_readdir k (sysfs_root dev) with
  | None => None
  | Some dents =>
      let '(ret, found) := readdir_loop k dents [] in
      if negb (ret =? 0) then None
      else
        Some {| num_classes := 0; class_tab := []; es_num_counters := 0;
                fd := 0; ts := pair0; rapl_fd := 0; r_gpu := pmu0;
                r_pkg := pmu0; num_rapl := 0; imc_fd := 0;
                imc_reads := pmu0; imc_writes := pmu0; num_imc := 0;
                freq_req := pmu0; freq_act := pmu0; irq := pmu0; rc6 := pmu0;
                discrete := negb (is_igpu dev); device := dev;
                engine_tab := qsort engine_cmp found |}
  end.


(** ** _open_pmu and pmu_init *)

(** [_open_pmu(type, cnt, pmu, fd)]: [n] counts the calls of
    [igt_perf_open_group] made so far.  The result is the descriptor
    returned, with the new values of [cnt], [pmu] and [fd]. *)
Definition _open_pmu (k : os) (n : nat) (ty cnt : Z) (pmu : pmu_counter)
  (gfd : Z) : Z * (Z * pmu_counter * Z) :=
  let fd__ := os_perf_open k n ty (config pmu) gfd in
  if 0 <=? fd__ then
    (fd__, (u32 (cnt + 1), set_opened pmu cnt,
            if gfd =? -1 then fd__ else gfd))
  else (fd__, (cnt, pmu, gfd)).

(** One step of the inner loop of [pmu_init] over busy, wait and sema. *)
Definition init_engine_counter (k : os) (n : nat) (ty : Z) (nm counter : string)
  (cnt : Z) (pmu : pmu_counter) (gfd : Z) (ncnt : Z)
  : Z * pmu_counter * Z * Z :=
  let pmu1 :=
    if config pmu =? 0 then set_config pmu (get_pmu_config k nm counter)
    else pmu in
  let '(fd__, (cnt', pmu', gfd')) := _open_pmu k n ty cnt pmu1 gfd in
  (cnt', pmu', gfd', if 0 <=? fd__ then u32 (ncnt + 1) else ncnt).

Definition init_engine (k : os) (n : nat) (ty : Z) (cnt gfd : Z) (e : engine)
  : Z * Z * engine :=
  let '(c1, b, f1, n1) :=
    init_engine_counter k n ty (name e) "busy" cnt (busy e) gfd
                        (num_counters e) in
  let '(c2, w, f2, n2) :=
    init_engine_counter k (n + 1) ty (name e) "wait" c1 (wait e) f1 n1 in
  let '(c3, s, f3, n3) :=
    init_engine_counter k (n + 2) ty (name e) "sema" c2 (sema e) f2 n2 in
  (c3, f3, set_counters e n3 b w s).

(** The loop of [pmu_init] over the engines. *)
Fixpoint init_engines (k : os) (n : nat) (ty : Z) (cnt gfd : Z)
  (es : list engine) : Z * Z * list engine :=
  match es with
  | [] => (cnt, gfd, [])
  | e :: rest =>
      let '(cnt1, gfd1, e') := init_engine k n ty cnt gfd e in
      let '(cnt2, gfd2, rest') := init_engines k (n + 3) ty cnt1 gfd1 rest in
      (cnt2, gfd2, e' :: rest')
  end.

(** [pmu_parse]: the error code and the counter as the conversions left it. *)
Definition pmu_parse (k : os) (pmu : pmu_counter) (path str : string)
  : Z * pmu_counter :=
  match os_opendir k path with
  | None => (- ENOENT, pmu)
  | Some dir =>
      let ty := match sd_type dir with Some v => v | None => type pmu end in
      let cfg := match sd_event dir str with
                 | Some v => v | None => config pmu end in
      let sc := match sd_scale dir str with
                | Some v => v | None => scale pmu end in
      let un := match sd_unit dir str with
                | Some v => v
                | None => str_append3 "events/" str ".unit" end in
      let result :=
        match sd_type dir, sd_event dir str, sd_scale dir str,
              sd_unit dir str with
        | Some _, Some _, Some _, Some _ => true
        | _, _, _, _ => false
        end in
      let pmu' :=
        {| type := ty; config := cfg; idx := idx pmu; val := val pmu;
           scale := sc; units := un; present := present pmu |} in
      if negb result then (- EINVAL, pmu')
      else
        match sc with
        | S754_nan | S754_zero _ => (- ERANGE, pmu')
        | _ => (0, pmu')
        end
  end.

Definition rapl_parse (k : os) (pmu : pmu_counter) (str : string)
  : Z * pmu_counter :=
  let '(err, pmu') := pmu_parse k pmu "/sys/devices/power" str in
  if err <? 0 then (err, pmu') else (0, pmu').

Definition imc_parse (k : os) (pmu : pmu_counter) (str : string)
  : Z * pmu_counter :=
  pmu_parse k pmu "/sys/devices/uncore_imc" str.

(** The common body of [rapl_open] and [imc_open]: [n] is the number of
    [igt_perf_open_group] calls so far; the result gives the new number,
    the counter, the group descriptor and the group's counter count. *)
Definition group_open (k : os) (n : nat) (parsed : Z * pmu_counter)
  (gfd num : Z) : nat * pmu_counter * Z * Z :=
  let '(err, pmu) := parsed in
  if err <? 0 then (n, pmu, gfd, num)
  else
    let fd_ := os_perf_open k n (type pmu) (config pmu) gfd in
    if fd_ <? 0 then (S n, pmu, gfd, num)
    else (S n, set_opened pmu num, (if gfd =? -1 then fd_ else gfd),
          u32 (num + 1)).

Definition rapl_open (k : os) (n : nat) (pmu : pmu_counter) (domain : string)
  (gfd num : Z) := group_open k n (rapl_parse k pmu domain) gfd num.

Definition imc_open (k : os) (n : nat) (pmu : pmu_counter) (domain : string)
  (gfd num : Z) := group_open k n (imc_parse k pmu domain) gfd num.

(** [pmu_init]: the return value and the engine table it leaves. *)
Definition pmu_init (k : os) (es : engines) : Z * engines :=
  let ty := os_perf_type_id k (device es) in
  let '(fd0, (c0, irq', f0)) :=
    _open_pmu k 0 ty 0 (set_config (irq es) I915_PMU_INTERRUPTS) (-1) in
  if fd0 <? 0 then
    (-1, {| num_classes := num_classes es; class_tab := class_tab es;
            es_num_counters := c0; fd := f0; ts := ts es;
            rapl_fd := rapl_fd es; r_gpu := r_gpu es; r_pkg := r_pkg es;
            num_rapl := num_rapl es; imc_fd := imc_fd es;
            imc_reads := imc_reads es; imc_writes := imc_writes es;
            num_imc := num_imc es; freq_req := freq_req es;
            freq_act := freq_act es; irq := irq'; rc6 := rc6 es;
            discrete := discrete es; device := device es;
            engine_tab := engine_tab es |})
  else
    let '(_, (c1, req', f1)) :=
      _open_pmu k 1 ty c0
        (set_config (freq_req es) I915_PMU_REQUESTED_FREQUENCY) f0 in
    let '(_, (c2, act', f2)) :=
      _open_pmu k 2 ty c1
        (set_config (freq_act es) I915_PMU_ACTUAL_FREQUENCY) f1 in
    let '(_, (c3, rc6', f3)) :=
      _open_pmu k 3 ty c2
        (set_config (rc6 es) I915_PMU_RC6_RESIDENCY) f2 in
    let '(c4, f4, tab') := init_engines k 4 ty c3 f3 (engine_tab es) in
    let n4 := (4 + 3 * List.length (engine_tab es))%nat in
    let '(n5, gpu', rfd1, nr1) :=
      if discrete es then (n4, r_gpu es, -1, num_rapl es)
      else rapl_open k n4 (r_gpu es) "energy-gpu" (-1) (num_rapl es) in
    let '(n6, pkg', rfd2, nr2) :=
      if discrete es then (n5, r_pkg es, rfd1, nr1)
      else rapl_open k n5 (r_pkg es) "energy-pkg" rfd1 nr1 in
    let '(n7, rd', ifd1, ni1) :=
      imc_open k n6 (imc_reads es) "data_reads" (-1) (num_imc es) in
    let '(n8, wr', ifd2, ni2) :=
      imc_open k n7 (imc_writes es) "data_writes" ifd1 ni1 in
    (0, {| num_classes := num_classes es; class_tab := class_tab es;
           es_num_counters := c4; fd := f4; ts := ts es;
           rapl_fd := rfd2; r_gpu := gpu'; r_pkg := pkg'; num_rapl := nr2;
           imc_fd := ifd2; imc_reads := rd'; imc_writes := wr';
           num_imc := ni2; freq_req := req'; freq_act := act';
           irq := irq'; rc6 := rc6'; discrete := discrete es;
           device := device es; engine_tab := tab' |}).


(** ** pmu_read_multi *)

(** Little-endian value of a run of bytes. *)
Fixpoint le_combine (bs : list Z) : Z :=
  match bs with
  | [] => 0
  | b :: rest => b mod 256 + 256 * le_combine rest
  end.

(** The 64-bit word [i] of a byte buffer. *)
Definition word_at (bytes : list Z) (i : nat) : Z :=
  le_combine (firstn 8 (skipn (8 * i) bytes)).

(** [read(fd, buf, count)] into a zeroed buffer of [count] bytes: the length
    returned and the buffer afterwards. *)
Definition do_read (k : os) (n : nat) (rfd : Z) (count : nat)
  : Z * list Z :=
  match os_read k n rfd (Z.of_nat count) with
  | ReadFail => (-1, repeat 0 count)
  | ReadBytes bs =>
      let got := firstn count bs in
      (Z.of_nat (List.length got),
       got ++ repeat 0 (count - List.length got))
  end.

(** [pmu_read_multi(fd, num, val)]: [None] when the assertion on the length
    fails; otherwise the returned word and the array [val] afterwards. *)
Definition pmu_read_multi (k : os) (n : nat) (rfd : Z) (num : nat)
  (v : list Z) : option (Z * list Z) :=
  let size := (8 * (2 + num))%nat in
  let '(len, buf) := do_read k n rfd size in
  if len =? Z.of_nat size then
    Some (word_at buf 1,
          map (fun i => word_at buf (2 + i)) (seq 0 num) ++ skipn num v)
  else None.

(** ** Sampling *)

Definition __update_sample (counter : pmu_counter) (v : Z) : pmu_counter :=
  set_val counter {| cur := v; prev := cur (val counter) |}.

Definition update_sample (counter : pmu_counter) (v : list Z) : pmu_counter :=
  if present counter then
    __update_sample counter (nth (Z.to_nat (idx counter)) v 0)
  else counter.

Definition sample_engine (v : list Z) (e : engine) : engine :=
  let b := update_sample (busy e) v in
  let s := update_sample (sema e) v in
  let w := update_sample (wait e) v in
  set_counters e (num_counters e) b w s.

(** [pmu_sample]: [n] counts the reads made so far on perf descriptors;
    [None] when an assertion of [pmu_read_multi] fails.  The array [val] is
    not initialised in the source; it is taken to hold zeros. *)
Definition pmu_sample (k : os) (n : nat) (es : engines)
  : option (engines * nat) :=
  let num_val := Z.to_nat (es_num_counters es) in
  let v0 := repeat 0 (2 + num_val)%nat in
  match pmu_read_multi k n (fd es) num_val v0 with
  | None => None
  | Some (stamp, v1) =>
      let ts' := {| cur := stamp; prev := cur (ts es) |} in
      let req' := update_sample (freq_req es) v1 in
      let act' := update_sample (freq_act es) v1 in
      let irq' := update_sample (irq es) v1 in
      let rc6' := update_sample (rc6 es) v1 in
      let tab' := map (sample_engine v1) (engine_tab es) in
      let rapl :=
        if negb (num_rapl es =? 0) then
          match pmu_read_multi k (n + 1) (rapl_fd es)
                               (Z.to_nat (num_rapl es)) v1 with
          | None => None
          | Some (_, v2) =>
              Some (update_sample (r_gpu es) v2, update_sample (r_pkg es) v2,
                    v2, (n + 2)%nat)
          end
        else Some (r_gpu es, r_pkg es, v1, (n + 1)%nat) in
      match rapl with
      | None => None
      | Some (gpu', pkg', v2, n2) =>
          let imc :=
            if negb (num_imc es =? 0) then
              match pmu_read_multi k n2 (imc_fd es)
                                   (Z.to_nat (num_imc es)) v2 with
              | None => None
              | Some (_, v3) =>
                  Some (update_sample (imc_reads es) v3,
                        update_sample (imc_writes es) v3, S n2)
              end
            else Some (imc_reads es, imc_writes es, n2) in
          match imc with
          | None => None
          | Some (rd', wr', n3) =>
              Some ({| num_classes := num_classes es;
                       class_tab := class_tab es;
                       es_num_counters := es_num_counters es; fd := fd es;
                       ts := ts'; rapl_fd := rapl_fd es; r_gpu := gpu';
                       r_pkg := pkg'; num_rapl := num_rapl es;
                       imc_fd := imc_fd es; imc_reads := rd';
                       imc_writes := wr'; num_imc := num_imc es;
                       freq_req := req'; freq_act := act'; irq := irq';
                       rc6 := rc6'; discrete := discrete es;
                       device := device es; engine_tab := tab' |}, n3)
          end
      end
  end.

(** The wall-time delta of [main]: [(double)(ts.cur - ts.prev) / 1e9]. *)
Definition sample_period (es : engines) : double :=
  ddiv (of_Z (u64 (cur (ts es) - prev (ts es)))) d1e9.

(** ** Class aggregation *)

Definition __pmu_sum (dst src : pmu_pair) : pmu_pair :=
  {| cur := u64 (cur dst + cur src); prev := u64 (prev dst + prev src) |}.

Definition __pmu_normalize (v : pmu_pair) (n : Z) : pmu_pair :=
  {| cur := cur v / n; prev := prev v / n |}.

Definition class_cmp (a b : engine_class) : Z :=
  to_int (ec_class a - ec_class b).

(** The largest class, as the first loop of [init_engine_classes]
    computes it, starting from -1. *)
Definition max_class (es : list engine) : Z :=
  fold_left (fun m e => if to_int (class e) >? m then to_int (class e) else m)
            es (-1).

Definition count_class (es : list engine) (c : Z) : Z :=
  Z.of_nat (List.length (filter (fun e => class e =? c) es)).

(** [init_engine_classes]: [None] when [assert(max >= 0)] fails. *)
Definition init_engine_classes (es : engines) : option engines :=
  let mx := max_class (engine_tab es) in
  if mx <? 0 then None
  else
    let num := u32 (mx + 1) in
    let classes :=
      map (fun i => {| ec_class := Z.of_nat i;
                       ec_name := class_display_name (Z.of_nat i);
                       ec_num_engines :=
                         u32 (count_class (engine_tab es) (Z.of_nat i)) |})
          (seq 0 (Z.to_nat num)) in
    Some {| num_classes := num; class_tab := qsort class_cmp classes;
            es_num_counters := es_num_counters es; fd := fd es; ts := ts es;
            rapl_fd := rapl_fd es; r_gpu := r_gpu es; r_pkg := r_pkg es;
            num_rapl := num_rapl es; imc_fd := imc_fd es;
            imc_reads := imc_reads es; imc_writes := imc_writes es;
            num_imc := num_imc es; freq_req := freq_req es;
            freq_act := freq_act es; irq := irq es; rc6 := rc6 es;
            discrete := discrete es; device := device es;
            engine_tab := engine_tab es |}.

Definition class0 : engine_class :=
  {| ec_class := 0; ec_name := EmptyString; ec_num_engines := 0 |}.

(** The synthetic engine of class [i]: the metadata of the first real engine
    of that class, if any. *)
Definition class_engine (es : list engine) (i : Z) : engine :=
  let base :=
    {| name := EmptyString; display_name := class_display_name i;
       short_name := class_short_name i; class := i;
       instance := u32 (-1); num_counters := 0;
       busy := pmu0; wait := pmu0; sema := pmu0 |} in
  match find (fun e => class e =? i) es with
  | Some e => set_counters base (num_counters e) (busy e) (wait e) (sema e)
  | None => base
  end.

(** [init_class_engines]: the engine table with its class table filled in,
    and the table of synthetic class engines. *)
Definition init_class_engines (es : engines) : option (engines * engines) :=
  match init_engine_classes es with
  | None => None
  | Some es' =>
      let present_classes :=
        filter (fun i => negb (ec_num_engines
                                 (nth i (class_tab es') class0) =? 0))
               (seq 0 (Z.to_nat (num_classes es'))) in
      Some (es',
            {| num_classes := num_classes es'; class_tab := class_tab es';
               es_num_counters := 0; fd := 0; ts := pair0; rapl_fd := 0;
               r_gpu := pmu0; r_pkg := pmu0; num_rapl := 0; imc_fd := 0;
               imc_reads := pmu0; imc_writes := pmu0; num_imc := 0;
               freq_req := pmu0; freq_act := pmu0; irq := pmu0; rc6 := pmu0;
               discrete := false; device := EmptyString;
               engine_tab :=
                 map (fun i => class_engine (engine_tab es') (Z.of_nat i))
                     present_classes |})
  end.

(** The body of the refresh loop of [update_class_engines] for one class
    engine: [None] when [assert(num_engines)] fails. *)
Definition refresh_class_engine (ctab : list engine_class) (es : list engine)
  (ce : engine) : option engine :=
  let n := ec_num_engines (nth (Z.to_nat (class ce)) ctab class0) in
  if n =? 0 then None
  else
    let members := filter (fun e => class e =? class ce) es in
    let total (f : engine -> pmu_counter) :=
      fold_left (fun acc e => __pmu_sum acc (val (f e))) members pair0 in
    Some (set_counters ce (num_counters ce)
            (set_val (busy ce) (__pmu_normalize (total busy) n))
            (set_val (wait ce) (__pmu_normalize (total wait) n))
            (set_val (sema ce) (__pmu_normalize (total sema) n))).

Fixpoint refresh_class_engines (ctab : list engine_class) (es : list engine)
  (ces : list engine) : option (list engine) :=
  match ces with
  | [] => Some []
  | ce :: rest =>
      match refresh_class_engine ctab es ce,
            refresh_class_engines ctab es rest with
      | Some ce', Some rest' => Some (ce' :: rest')
      | _, _ => None
      end
  end.

Definition set_engine_tab (es : engines) (tab : list engine) : engines :=
  {| num_classes := num_classes es; class_tab := class_tab es;
     es_num_counters := es_num_counters es; fd := fd es; ts := ts es;
     rapl_fd := rapl_fd es; r_gpu := r_gpu es; r_pkg := r_pkg es;
     num_rapl := num_rapl es; imc_fd := imc_fd es;
     imc_reads := imc_reads es; imc_writes := imc_writes es;
     num_imc := num_imc es; freq_req := freq_req es;
     freq_act := freq_act es; irq := irq es; rc6 := rc6 es;
     discrete := discrete es; device := device es; engine_tab := tab |}.

(** [update_class_engines]: [static_classes] is the function's static
    variable.  The result gives the engine table (whose class table the
    first call fills in) and the refreshed class engines, which are also
    the new value of the static variable. *)
Definition update_class_engines (static_classes : option engines)
  (es : engines) : option (engines * engines) :=
  let init :=
    match static_classes with
    | Some c => Some (es, c)
    | None => init_class_engines es
    end in
  match init with
  | None => None
  | Some (es', c) =>
      match refresh_class_engines (class_tab c) (engine_tab es')
                                  (engine_tab c) with
      | None => None
      | Some tab => Some (es', set_engine_tab c tab)
      end
  end.


(** ** Renderer data *)

Inductive output_mode_t := INTERACTIVE | STDOUT | JSON | PROMETHEUS.

Definition mode_eqb (a b : output_mode_t) : bool :=
  match a, b with
  | INTERACTIVE, INTERACTIVE | STDOUT, STDOUT | JSON, JSON
  | PROMETHEUS, PROMETHEUS => true
  | _, _ => false
  end.

(** Contents of a character buffer: a literal string, or what
    [snprintf(buf, size, "%*.*f", width, precision, v)] leaves in a buffer
    of [size] bytes, replaced by a run of ['X'] when [snprintf] returns
    exactly [size]. *)
Inductive cbuf :=
| BufStr (text : string)
| BufNum (size width precision : Z) (v : double).

Record cnt_item := {
  it_pmu : option pmu_counter;
  it_fmt_width : Z;
  it_fmt_precision : Z;
  it_d : double;
  it_t : double;
  it_s : double;
  it_name : string;
  it_unit : option string;
  it_buf : cbuf
}.

(** [struct cnt_group]; [g_items] holds the items before the terminating
    entry whose name is NULL. *)
Record cnt_group := {
  g_name : string;
  g_display_name : option string;
  g_items : list cnt_item
}.

Definition mk_item (p : option pmu_counter) (w pr : Z) (d t s : double)
  (nm : string) (un : option string) : cnt_item :=
  {| it_pmu := p; it_fmt_width := w; it_fmt_precision := pr; it_d := d;
     it_t := t; it_s := s; it_name := nm; it_unit := un;
     it_buf := BufStr EmptyString |}.

Definition set_buf (it : cnt_item) (b : cbuf) : cnt_item :=
  {| it_pmu := it_pmu it; it_fmt_width := it_fmt_width it;
     it_fmt_precision := it_fmt_precision it; it_d := it_d it;
     it_t := it_t it; it_s := it_s it; it_name := it_name it;
     it_unit := it_unit it; it_buf := b |}.

(** Arguments of the [printf] calls of the interactive mode; [ASnprintf]
    is a local buffer filled by [snprintf] with the given format. *)
Inductive arg :=
| AStr (text : string)
| AInt (z : Z)
| ABuf (b : cbuf)
| ASnprintf (fmt : string) (bufs : list cbuf).

(** What the program writes and when it waits: one constructor per output
    statement of the source, with the arguments of its format. *)
Inductive out_event :=
| JsonOpenNamed (comma : bool) (indent : Z) (nm : string)
| JsonOpenAnon (comma : bool) (indent : Z)
| JsonClose (indent : Z)
| JsonMember (comma : bool) (indent : Z) (nm : string)
| JsonUnit (u : option string)
| JsonValue (v : double)
| StdoutGroupHeader (width : Z) (text : option string)
| StdoutUnitHeader (width : Z) (text : string)
| StdoutValue (b : cbuf)
| StdoutNewline
| PromHelp (parent_key item_key : string) (disp : option string)
           (item : string)
| PromHelpUnit (u : string)
| PromHelpEnd
| PromType (parent_key item_key : string)
| PromSample (parent_key item_key : string) (v : double)
| PromEnd
| TermPrintf (fmt : string) (args : list arg)
| TermBar (percent : double) (max_len : Z)
| Usleep (us : Z)
| Poll (timeout_ms : Z)
| Sampled.

(** ** File-scope variables *)

Record globals := {
  output_mode : output_mode_t;
  json_indent_level : Z;
  json_prev_struct_members : Z;
  json_struct_members : Z;
  stdout_level : Z;
  stdout_lines : Z;
  class_view : bool;
  classes : option engines;
  stop_top : bool;
  observed : nat;
  reads : nat;
  out : list out_event
}.

Definition STDOUT_HEADER_REPEAT : Z := 20.

(** The variables as the program starts, for a given output mode. *)
Definition globals0 (m : output_mode_t) : globals :=
  {| output_mode := m; json_indent_level := 0;
     json_prev_struct_members := 0; json_struct_members := 0;
     stdout_level := 0; stdout_lines := STDOUT_HEADER_REPEAT;
     class_view := false; classes := None; stop_top := false;
     observed := 0; reads := 0; out := [] |}.

Definition set_json (g : globals) (lvl prevm m : Z) : globals :=
  {| output_mode := output_mode g; json_indent_level := lvl;
     json_prev_struct_members := prevm; json_struct_members := m;
     stdout_level := stdout_level g; stdout_lines := stdout_lines g;
     class_view := class_view g; classes := classes g;
     stop_top := stop_top g; observed := observed g; reads := reads g;
     out := out g |}.

Definition set_stdout (g : globals) (lvl lines : Z) : globals :=
  {| output_mode := output_mode g;
     json_indent_level := json_indent_level g;
     json_prev_struct_members := json_prev_struct_members g;
     json_struct_members := json_struct_members g;
     stdout_level := lvl; stdout_lines := lines;
     class_view := class_view g; classes := classes g;
     stop_top := stop_top g; observed := observed g; reads := reads g;
     out := out g |}.

Definition set_view (g : globals) (cv : bool) (cl : option engines)
  : globals :=
  {| output_mode := output_mode g;
     json_indent_level := json_indent_level g;
     json_prev_struct_members := json_prev_struct_members g;
     json_struct_members := json_struct_members g;
     stdout_level := stdout_level g; stdout_lines := stdout_lines g;
     class_view := cv; classes := cl;
     stop_top := stop_top g; observed := observed g; reads := reads g;
     out := out g |}.

Definition set_run (g : globals) (stop : bool) (obs rd : nat) : globals :=
  {| output_mode := output_mode g;
     json_indent_level := json_indent_level g;
     json_prev_struct_members := json_prev_struct_members g;
     json_struct_members := json_struct_members g;
     stdout_level := stdout_level g; stdout_lines := stdout_lines g;
     class_view := class_view g; classes := classes g;
     stop_top := stop; observed := obs; reads := rd; out := out g |}.

Definition add_out (g : globals) (evs : list out_event) : globals :=
  {| output_mode := output_mode g;
     json_indent_level := json_indent_level g;
     json_prev_struct_members := json_prev_struct_members g;
     json_struct_members := json_struct_members g;
     stdout_level := stdout_level g; stdout_lines := stdout_lines g;
     class_view := class_view g; classes := classes g;
     stop_top := stop_top g; observed := observed g; reads := reads g;
     out := out g ++ evs |}.

(** ** A state monad with failure

    [None] stands for a failed [assert] (or a NULL dereference): the
    program is aborted. *)
Definition M (A : Type) : Type := globals -> option (A * globals).

Definition ret {A : Type} (a : A) : M A := fun g => Some (a, g).

Definition bind {A B : Type} (c : M A) (f : A -> M B) : M B :=
  fun g => match c g with
           | Some (a, g') => f a g'
           | None => None
           end.

Definition get : M globals := fun g => Some (g, g).
Definition put (g : globals) : M unit := fun _ => Some (tt, g).
Definition abort {A : Type} : M A := fun _ => None.
Definition assert (b : bool) : M unit := if b then ret tt else abort.
Definition emit (e : out_event) : M unit :=
  fun g => Some (tt, add_out g [e]).

Declare Scope monad_scope.
Delimit Scope monad_scope with monad.
Notation "x <- c1 ;; c2" := (bind c1 (fun x => c2))
  (at level 61, c1 at next level, right associativity) : monad_scope.
Notation "' pat <- c1 ;; c2" := (bind c1 (fun x => let 'pat := x in c2))
  (at level 61, pat pattern, c1 at next level, right associativity)
  : monad_scope.
Notation "c1 ;; c2" := (bind c1 (fun _ => c2))
  (at level 61, right associativity) : monad_scope.
Local Open Scope monad_scope.

(** ** The JSON renderer *)

Definition json_open_struct (nm : option string) : M unit :=
  g <- get ;;
  assert (json_indent_level g <? 6) ;;
  let prevm := json_struct_members g in
  emit (match nm with
        | Some n => JsonOpenNamed (negb (prevm =? 0)) (json_indent_level g) n
        | None => JsonOpenAnon (negb (prevm =? 0)) (json_indent_level g)
        end) ;;
  g' <- get ;;
  put (set_json g' (json_indent_level g + 1) prevm 0).

Definition json_close_struct : M unit :=
  g <- get ;;
  assert (0 <? json_indent_level g) ;;
  emit (JsonClose (json_indent_level g - 1)) ;;
  g' <- get ;;
  put (set_json g' (json_indent_level g - 1) (json_prev_struct_members g)
                (json_struct_members g)).

Definition json_add_member (parent : cnt_group) (i : nat) (item : cnt_item)
  (headers : Z) : M (Z * cnt_item) :=
  g <- get ;;
  assert (json_indent_level g <? 6) ;;
  emit (JsonMember (negb (json_struct_members g =? 0))
                   (json_indent_level g) (it_name item)) ;;
  g' <- get ;;
  put (set_json g' (json_indent_level g) (json_prev_struct_members g)
                (u32 (json_struct_members g + 1))) ;;
  (if String.eqb (it_name item) "unit" then emit (JsonUnit (it_unit item))
   else match it_pmu item with
        | None => abort
        | Some p =>
            emit (JsonValue (pmu_calc (val p) (it_d item) (it_t item)
                                      (it_s item)))
        end) ;;
  ret (1, item).

(** ** The plain-text renderer *)

Definition stdout_open_struct (nm : option string) : M unit :=
  g <- get ;;
  let lvl := u32 (stdout_level g + 1) in
  put (set_stdout g lvl (stdout_lines g)) ;;
  assert (0 <? lvl).

Definition stdout_close_struct : M unit :=
  g <- get ;;
  assert (0 <? stdout_level g) ;;
  let lvl := stdout_level g - 1 in
  if lvl =? 0 then
    put (set_stdout g lvl (u32 (stdout_lines g + 1))) ;;
    emit StdoutNewline
  else put (set_stdout g lvl (stdout_lines g)).

Definition fmt_tot_of (item : cnt_item) : Z :=
  u32 (it_fmt_width item + (if it_fmt_precision item =? 0 then 0 else 1)).

(** [for (it = parent->items; it->pmu; it++)]: the items before the first
    one without a counter. *)
Fixpoint leading_items (items : list cnt_item) : list cnt_item :=
  match items with
  | [] => []
  | it :: rest =>
      match it_pmu it with
      | Some _ => it :: leading_items rest
      | None => []
      end
  end.

Definition is_present (item : cnt_item) : bool :=
  match it_pmu item with
  | Some p => present p
  | None => false
  end.

Definition grp_tot_of (parent : cnt_group) : Z :=
  fold_left
    (fun tot it => if is_present it then u32 (tot + (1 + fmt_tot_of it))
                   else tot)
    (leading_items (g_items parent)) 0.

Definition stdout_add_member (parent : cnt_group) (i : nat) (item : cnt_item)
  (headers : Z) : M (Z * cnt_item) :=
  let fmt_tot := fmt_tot_of item in
  match it_pmu item with
  | None => ret (0, item)
  | Some p =>
      if negb (present p) then ret (0, item)
      else if headers =? 1 then
        if negb (i =? 0)%nat then ret (0, item)
        else
          emit (StdoutGroupHeader (to_int (grp_tot_of parent - 1))
                                  (g_display_name parent)) ;;
          ret (0, item)
      else if headers =? 2 then
        emit (StdoutUnitHeader (to_int fmt_tot)
                (match it_unit item with
                 | Some u => u
                 | None => it_name item
                 end)) ;;
        ret (0, item)
      else
        let v := pmu_calc (val p) (it_d item) (it_t item) (it_s item) in
        emit (StdoutValue (BufNum (fmt_tot + 1) fmt_tot
                                  (it_fmt_precision item) v)) ;;
        ret (fmt_tot + 1, item)
  end.

(** ** The Prometheus renderer *)

Definition tolower (c : ascii) : ascii :=
  let n := N_of_ascii c in
  if (N.leb 65 n && N.leb n 90)%bool then ascii_of_N (n + 32) else c.

Definition is_key_char (c : ascii) : bool :=
  let n := N_of_ascii c in
  ((N.leb 48 n && N.leb n 57) || (N.leb 97 n && N.leb n 122))%bool.

Fixpoint map_string (f : ascii -> ascii) (str : string) : string :=
  match str with
  | EmptyString => EmptyString
  | String c rest => String (f c) (map_string f rest)
  end.

(** [snprintf(key, 20, "%s", src)]: at most 19 characters are kept. *)
Definition key_copy (src : string) : string := substring 0 19 src.

(** The first loop of [prometheus_add_member], over [parent_name_key]. *)
Definition parent_key_of (src : string) : string :=
  map_string (fun c => let c' := tolower c in
                       if is_key_char c' then c' else "_"%char)
             (key_copy src).

(** [tolower] on the first [n] characters of a string. *)
Fixpoint lower_prefix (n : nat) (str : string) : string :=
  match n, str with
  | S n', String c rest => String (tolower c) (lower_prefix n' rest)
  | _, _ => str
  end.

(** The second loop, which runs over [item_name_key] for as long as
    [parent_name_key] has characters; what it writes at and after the
    terminator of [item_name_key] does not change the string. *)
Definition item_key_of (parent_key src : string) : string :=
  lower_prefix (String.length parent_key) (key_copy src).

Definition prometheus_add_member (k : os) (parent : cnt_group) (i : nat)
  (item : cnt_item) (headers : Z) : M (Z * cnt_item) :=
  match it_pmu item with
  | None => ret (0, item)
  | Some p =>
      if negb (present p) then ret (0, item)
      else
        let pk := parent_key_of (g_name parent) in
        let ik := item_key_of pk (it_name item) in
        emit (PromHelp pk ik (g_display_name parent) (it_name item)) ;;
        match it_unit item with
        | Some u => emit (PromHelpUnit u)
        | None => ret tt
        end ;;
        emit PromHelpEnd ;;
        emit (PromType pk ik) ;;
        let v := pmu_calc (val p) (it_d item) (it_t item) (it_s item) in
        emit (PromSample pk ik v) ;;
        ret (Z.of_nat (String.length "intel_gpu_top_" + String.length pk + 1
                       + String.length ik + 1) + os_fmt_f_len k 6 v + 1,
             item)
  end.


(** ** The interactive renderer *)

(** [fill_str(buf, bufsz, c, num)]. *)
Definition fill_str (bufsz : Z) (c : ascii) (num : Z) : string :=
  string_of_list_ascii (repeat c (Z.to_nat (Z.min num (u32 (bufsz - 1))))).

Definition term_add_member (parent : cnt_group) (i : nat) (item : cnt_item)
  (headers : Z) : M (Z * cnt_item) :=
  let fmt_tot := fmt_tot_of item in
  match it_pmu item with
  | None => ret (0, item)
  | Some p =>
      assert (fmt_tot <=? 16) ;;
      if negb (present p) then
        ret (1, set_buf item (BufStr (fill_str 16 "-" fmt_tot)))
      else
        let v := pmu_calc (val p) (it_d item) (it_t item) (it_s item) in
        ret (1, set_buf item (BufNum 16 fmt_tot (it_fmt_precision item) v))
  end.

(** Number of characters in a buffer. *)
Definition cbuf_len (k : os) (b : cbuf) : Z :=
  match b with
  | BufStr text => Z.of_nat (String.length text)
  | BufNum size w p v =>
      let len := Z.max w (os_fmt_f_len k p v) in
      if len =? size then Z.min w (size - 1) else Z.min len (size - 1)
  end.

(** ** print_group and the tables of operations *)

Record print_operations := {
  open_struct : option string -> M unit;
  close_struct : M unit;
  add_member : cnt_group -> nat -> cnt_item -> Z -> M (Z * cnt_item);
  print_group : cnt_group -> Z -> M (bool * cnt_group)
}.

Definition present_in_group (grp : cnt_group) : Z :=
  Z.of_nat (List.length (filter is_present (g_items grp))).

(** The loop [for (item = grp->items; item->name; item++)] over the items
    from index [i] on. *)
Fixpoint add_members
  (add : cnt_group -> nat -> cnt_item -> Z -> M (Z * cnt_item))
  (grp : cnt_group) (i : nat) (items : list cnt_item) (headers : Z)
  (consumed : Z) : M (Z * list cnt_item) :=
  match items with
  | [] => ret (consumed, [])
  | item :: rest =>
      '(c, item') <- add grp i item headers ;;
      '(total, rest') <-
        add_members add grp (S i) rest headers (u32 (consumed + c)) ;;
      ret (total, item' :: rest')
  end.

Definition set_items (grp : cnt_group) (items : list cnt_item) : cnt_group :=
  {| g_name := g_name grp; g_display_name := g_display_name grp;
     g_items := items |}.

Definition term_print_group_with (o : option string -> M unit) (c : M unit)
  (add : cnt_group -> nat -> cnt_item -> Z -> M (Z * cnt_item))
  (grp : cnt_group) (headers : Z) : M (bool * cnt_group) :=
  o (Some (g_name grp)) ;;
  '(consumed, items') <- add_members add grp 0 (g_items grp) headers 0 ;;
  c ;;
  ret (negb (consumed =? 0), set_items grp items').

Definition print_group_with (o : option string -> M unit) (c : M unit)
  (add : cnt_group -> nat -> cnt_item -> Z -> M (Z * cnt_item))
  (grp : cnt_group) (headers : Z) : M (bool * cnt_group) :=
  if present_in_group grp =? 0 then ret (false, grp)
  else term_print_group_with o c add grp headers.

Definition json_pops : print_operations :=
  {| open_struct := json_open_struct; close_struct := json_close_struct;
     add_member := json_add_member;
     print_group :=
       print_group_with json_open_struct json_close_struct json_add_member |}.

Definition stdout_pops : print_operations :=
  {| open_struct := stdout_open_struct; close_struct := stdout_close_struct;
     add_member := stdout_add_member;
     print_group :=
       print_group_with stdout_open_struct stdout_close_struct
                        stdout_add_member |}.

Definition prometheus_pops (k : os) : print_operations :=
  {| open_struct := fun _ => ret tt; close_struct := ret tt;
     add_member := prometheus_add_member k;
     print_group :=
       print_group_with (fun _ => ret tt) (ret tt)
                        (prometheus_add_member k) |}.

Definition term_pops : print_operations :=
  {| open_struct := fun _ => ret tt; close_struct := ret tt;
     add_member := term_add_member;
     print_group :=
       term_print_group_with (fun _ => ret tt) (ret tt) term_add_member |}.

(** The [switch (output_mode)] of [main] that selects [pops]. *)
Definition pops_of (k : os) (m : output_mode_t) : print_operations :=
  match m with
  | INTERACTIVE => term_pops
  | STDOUT => stdout_pops
  | PROMETHEUS => prometheus_pops k
  | JSON => json_pops
  end.

(** ** print_groups *)

(** The first loop of [print_groups]: every group is printed in header
    mode and [print_data] keeps the result of the last one. *)
Fixpoint print_groups_headers (pops : print_operations)
  (groups : list cnt_group) (headers : Z) (print_data : bool)
  : M (bool * list cnt_group) :=
  match groups with
  | [] => ret (print_data, [])
  | grp :: rest =>
      '(r, grp') <- print_group pops grp headers ;;
      '(final, rest') <- print_groups_headers pops rest headers r ;;
      ret (final, grp' :: rest')
  end.

(** The second loop of [print_groups], entered when [print_data] holds:
    every group is printed in data mode. *)
Fixpoint print_groups_data (pops : print_operations)
  (groups : list cnt_group) : M (list cnt_group) :=
  match groups with
  | [] => ret []
  | grp :: rest =>
      '(_, grp') <- print_group pops grp 0 ;;
      rest' <- print_groups_data pops rest ;;
      ret (grp' :: rest')
  end.

Definition print_groups (k : os) (groups : list cnt_group)
  : M (bool * list cnt_group) :=
  g <- get ;;
  let pops := pops_of k (output_mode g) in
  let headers := u32 (stdout_lines g mod STDOUT_HEADER_REPEAT + 1) in
  '(print_data, groups1) <-
    (if mode_eqb (output_mode g) STDOUT
        && ((headers =? 1) || (headers =? 2))
     then print_groups_headers pops groups headers true
     else ret (true, groups)) ;;
  groups2 <- (if print_data then print_groups_data pops groups1
              else ret groups1) ;;
  ret (print_data, groups2).


(** ** The groups of one sample *)

Definition INT_MAX : Z := 2 ^ 31 - 1.

Definition unit_item (un : option string) : cnt_item :=
  mk_item None 0 0 dzero dzero dzero "unit" un.

Definition fake_pmu : pmu_counter :=
  set_opened (set_val pmu0 {| cur := 1; prev := 0 |}) 0.

Definition period_group (t : double) : cnt_group :=
  {| g_name := "period"; g_display_name := None;
     g_items := [ mk_item (Some fake_pmu) 0 0 d1 d1 (dmul t d1e3)
                          "duration" None;
                  unit_item (Some "ms"%string) ] |}.

Definition freq_group (es : engines) (t : double) : cnt_group :=
  {| g_name := "frequency"; g_display_name := Some "Freq MHz"%string;
     g_items := [ mk_item (Some (freq_req es)) 4 0 d1 t d1 "requested"
                          (Some "req"%string);
                  mk_item (Some (freq_act es)) 4 0 d1 t d1 "actual"
                          (Some "act"%string);
                  unit_item (Some "MHz"%string) ] |}.

Definition irq_group (es : engines) (t : double) : cnt_group :=
  {| g_name := "interrupts"; g_display_name := Some "IRQ"%string;
     g_items := [ mk_item (Some (irq es)) 8 0 d1 t d1 "count"
                          (Some "/s"%string);
                  unit_item (Some "irq/s"%string) ] |}.

Definition rc6_group (es : engines) (t : double) : cnt_group :=
  {| g_name := "rc6"; g_display_name := Some "RC6"%string;
     g_items := [ mk_item (Some (rc6 es)) 3 0 d1e9 t d100 "value"
                          (Some "%"%string);
                  unit_item (Some "%"%string) ] |}.

Definition power_group (es : engines) (t : double) : cnt_group :=
  {| g_name := "power"; g_display_name := Some "Power W"%string;
     g_items := [ mk_item (Some (r_gpu es)) 4 2 d1 t (scale (r_gpu es))
                          "GPU" (Some "gpu"%string);
                  mk_item (Some (r_pkg es)) 4 2 d1 t (scale (r_pkg es))
                          "Package" (Some "pkg"%string);
                  unit_item (Some "W"%string) ] |}.

Definition imc_group (es : engines) (t : double) : cnt_group :=
  {| g_name := "imc-bandwidth";
     g_display_name :=
       Some (str_append3 "IMC " (units (imc_reads es)) "/s");
     g_items := [ mk_item (Some (imc_reads es)) 6 0 d1 t
                          (scale (imc_reads es)) "reads" (Some "rd"%string);
                  mk_item (Some (imc_writes es)) 6 0 d1 t
                          (scale (imc_writes es)) "writes"
                          (Some "wr"%string);
                  unit_item (Some (units (imc_reads es) ++ "/s")%string) ] |}.

Definition engine_group (e : engine) (t : double) : cnt_group :=
  {| g_name := display_name e; g_display_name := Some (short_name e);
     g_items := [ mk_item (Some (busy e)) 6 2 d1e9 t d100 "busy"
                          (Some "%"%string);
                  mk_item (Some (sema e)) 3 0 d1e9 t d100 "sema"
                          (Some "se"%string);
                  mk_item (Some (wait e)) 3 0 d1e9 t d100 "wait"
                          (Some "wa"%string);
                  unit_item (Some "%"%string) ] |}.

Definition group0 : cnt_group :=
  {| g_name := EmptyString; g_display_name := None; g_items := [] |}.

(** The buffer of item [ii] of group [gi] of an array of groups. *)
Definition item_buf (gs : list cnt_group) (gi ii : nat) : cbuf :=
  it_buf (nth ii (g_items (nth gi gs group0)) (unit_item None)).

(** ** print_header, print_imc, print_engines *)

Definition when (b : bool) (c : M unit) : M unit := if b then c else ret tt.

Definition print_header (k : os) (card codename : string) (es : engines)
  (t : double) (lines con_w con_h : Z) : M (Z * bool) :=
  g <- get ;;
  let all := [ period_group t; freq_group es t; irq_group es t;
               rc6_group es t; power_group es t ] in
  let groups :=
    if negb (mode_eqb (output_mode g) JSON) then tl all else all in
  open_struct (pops_of k (output_mode g)) None ;;
  '(consumed, gs) <- print_groups k groups ;;
  if mode_eqb (output_mode g) INTERACTIVE then
    emit (TermPrintf "\033[H\033[J" []) ;;
    when (lines <? con_h)
      (emit (TermPrintf "intel-gpu-top: %s @ %s - "
                        [AStr codename; AStr card]) ;;
       emit (TermPrintf "%s/%s MHz;  %s%% RC6; "
                        [ABuf (item_buf gs 0 1); ABuf (item_buf gs 0 0);
                         ABuf (item_buf gs 2 0)]) ;;
       when (present (r_gpu es))
         (emit (TermPrintf "%s/%s W; "
                           [ABuf (item_buf gs 3 0); ABuf (item_buf gs 3 1)])) ;;
       emit (TermPrintf "%s irqs/s\n" [ABuf (item_buf gs 1 0)])) ;;
    when (lines + 1 <? con_h) (emit (TermPrintf "\n" [])) ;;
    ret (lines + 2, consumed)
  else ret (lines, consumed).

Definition print_imc (k : os) (es : engines) (t : double)
  (lines con_w con_h : Z) : M Z :=
  if num_imc es =? 0 then ret lines
  else
    g <- get ;;
    '(_, gs) <- print_groups k [imc_group es t] ;;
    if mode_eqb (output_mode g) INTERACTIVE then
      when (lines <? con_h)
        (emit (TermPrintf "      IMC reads:   %s %s/s\n"
                          [ABuf (item_buf gs 0 0);
                           AStr (units (imc_reads es))])) ;;
      when (lines + 1 <? con_h)
        (emit (TermPrintf "     IMC writes:   %s %s/s\n"
                          [ABuf (item_buf gs 0 1);
                           AStr (units (imc_writes es))])) ;;
      when (lines + 2 <? con_h) (emit (TermPrintf "\n" [])) ;;
      ret (lines + 3)
    else ret lines.

(** The loop of [print_engines_header] from the engines [tab] on: it stops
    at the first engine that has counters. *)
Fixpoint print_engines_header_loop (k : os) (tab : list engine)
  (lines con_w con_h : Z) : M Z :=
  match tab with
  | [] => ret lines
  | e :: rest =>
      if negb (lines <? con_h) then ret lines
      else if num_counters e =? 0 then
        print_engines_header_loop k rest lines con_w con_h
      else
        g <- get ;;
        open_struct (pops_of k (output_mode g)) (Some "engines"%string) ;;
        if mode_eqb (output_mode g) INTERACTIVE then
          let a := if class_view g then "         ENGINES     BUSY  "%string
                   else "          ENGINE     BUSY  "%string in
          let b := " MI_SEMA MI_WAIT"%string in
          emit (TermPrintf "\033[7m%s%*s%s\033[0m\n"
                  [AStr a;
                   AInt (to_int (con_w - 1 - Z.of_nat (String.length a)
                                 - Z.of_nat (String.length b)));
                   AStr " "; AStr b]) ;;
          ret (lines + 1)
        else ret lines
  end.

Definition print_engines_header (k : os) (es : engines) (t : double)
  (lines con_w con_h : Z) : M Z :=
  print_engines_header_loop k (engine_tab es) lines con_w con_h.

Definition print_engine (k : os) (e : engine) (t : double)
  (lines con_w con_h : Z) : M Z :=
  if num_counters e =? 0 then ret lines
  else
    g <- get ;;
    '(_, gs) <- print_groups k [engine_group e t] ;;
    if mode_eqb (output_mode g) INTERACTIVE then
      let max_w := u32 (con_w - 1) in
      let len1 := 4 + cbuf_len k (item_buf gs 0 1) + 1 + 4
                  + cbuf_len k (item_buf gs 0 2) + 1 in
      let len2 := Z.max 16 (Z.of_nat (String.length (display_name e))) + 1
                  + cbuf_len k (item_buf gs 0 0) + 2 in
      emit (TermPrintf "%16s %s%% "
                       [AStr (display_name e); ABuf (item_buf gs 0 0)]) ;;
      emit (TermBar (pmu_calc (val (busy e)) d1e9 t d100)
                    (to_int (max_w - u32 (len1 + len2)))) ;;
      emit (TermPrintf "%s\n"
                       [ASnprintf "    %s%%    %s%%"
                                  [item_buf gs 0 1; item_buf gs 0 2]]) ;;
      ret (lines + 1)
    else ret lines.

Definition print_engines_footer (k : os) (es : engines) (t : double)
  (lines con_w con_h : Z) : M Z :=
  g <- get ;;
  close_struct (pops_of k (output_mode g)) ;;
  close_struct (pops_of k (output_mode g)) ;;
  if mode_eqb (output_mode g) INTERACTIVE then
    when (lines <? con_h) (emit (TermPrintf "\n" [])) ;;
    ret (lines + 1)
  else ret lines.

(** The loop of [print_engines] over the engines shown. *)
Fixpoint print_engine_rows (k : os) (tab : list engine) (t : double)
  (lines con_w con_h : Z) : M Z :=
  match tab with
  | [] => ret lines
  | e :: rest =>
      if negb (lines <? con_h) then ret lines
      else
        lines' <- print_engine k e t lines con_w con_h ;;
        print_engine_rows k rest t lines' con_w con_h
  end.

(** [print_engines]; the engine table is returned because the first switch
    to the class view fills in its class table. *)
Definition print_engines (k : os) (es : engines) (t : double)
  (lines w h : Z) : M (Z * engines) :=
  g <- get ;;
  '(es', show) <-
    (if class_view g then
       match update_class_engines (classes g) es with
       | None => abort
       | Some (es', c) =>
           put (set_view g (class_view g) (Some c)) ;; ret (es', c)
       end
     else ret (es, es)) ;;
  lines1 <- print_engines_header k show t lines w h ;;
  lines2 <- print_engine_rows k (engine_tab show) t lines1 w h ;;
  lines3 <- print_engines_footer k show t lines2 w h ;;
  ret (lines3, es').


(** ** The control loop *)

(** One look at [stop_top].  In the non-interactive modes the handler of
    SIGINT may have set it in the meantime: [os_sigint] tells, for each look,
    whether the signal has arrived since the previous one. *)
Definition observe_stop (k : os) : M bool :=
  g <- get ;;
  let stop :=
    (stop_top g
     || (negb (mode_eqb (output_mode g) INTERACTIVE)
         && os_sigint k (observed g)))%bool in
  put (set_run g stop (S (observed g)) (reads g)) ;;
  ret stop.

(** The keys read by [process_stdin]. *)
Fixpoint process_keys (keys : list ascii) (g : globals) : globals :=
  match keys with
  | [] => g
  | c :: rest =>
      let g' :=
        if Ascii.eqb c "q" then set_run g true (observed g) (reads g)
        else if Ascii.eqb c "1" then
          set_view g (xorb (class_view g) true) (classes g)
        else g in
      process_keys rest g'
  end.

Definition process_stdin (k : os) (timeout_us : Z) : M unit :=
  emit (Poll (to_int (timeout_us / 1000))) ;;
  g <- get ;;
  let g1 := set_run g (stop_top g) (S (observed g)) (reads g) in
  match os_poll k (observed g) with
  | PollError => put (set_run g1 true (observed g1) (reads g1))
  | PollTimeout => put g1
  | PollKeys keys => put (process_keys keys g1)
  end.

(** [pmu_sample] on the program state. *)
Definition do_sample (k : os) (es : engines) : M engines :=
  g <- get ;;
  match pmu_sample k (reads g) es with
  | None => abort
  | Some (es', n) =>
      put (set_run g (stop_top g) (observed g) n) ;;
      emit Sampled ;;
      ret es'
  end.

(** The loop [while (!consumed)] of [main]; [None] when the fuel runs out. *)
Fixpoint print_passes (fuel : nat) (k : os) (card codename : string)
  (es : engines) (t : double) (lines con_w con_h : Z)
  : M (option engines) :=
  match fuel with
  | O => ret None
  | S fuel' =>
      '(lines1, consumed) <-
        print_header k card codename es t lines con_w con_h ;;
      lines2 <- print_imc k es t lines1 con_w con_h ;;
      '(lines3, es') <- print_engines k es t lines2 con_w con_h ;;
      if consumed then ret (Some es')
      else print_passes fuel' k card codename es' t lines3 con_w con_h
  end.

Inductive loop_exit := LoopDone | LoopFuel.

(** The terminal size at the head of the loop body. *)
Definition terminal_size (k : os) (g : globals) (con_w con_h : Z) : Z * Z :=
  if negb (mode_eqb (output_mode g) INTERACTIVE) then (INT_MAX, INT_MAX)
  else
    match os_winsize k (observed g) with
    | Some (col, row) =>
        if (col =? 0) && (row =? 0) then (80, 24) else (col, row)
    | None => (con_w, con_h)
    end.

(** The loop [while (!stop_top)] of [main]. *)
Fixpoint main_loop (fuel : nat) (k : os) (card codename : string)
  (period_us : Z) (es : engines) (con_w con_h : Z)
  : M (loop_exit * engines) :=
  match fuel with
  | O => ret (LoopFuel, es)
  | S fuel' =>
      stop0 <- observe_stop k ;;
      if stop0 then ret (LoopDone, es)
      else
        g <- get ;;
        let '(w, h) := terminal_size k g con_w con_h in
        when (mode_eqb (output_mode g) PROMETHEUS)
             (emit (Usleep period_us)) ;;
        es1 <- do_sample k es ;;
        let t := sample_period es1 in
        stop1 <- observe_stop k ;;
        if stop1 then ret (LoopDone, es1)
        else
          shown <- print_passes 3 k card codename es1 t 0 w h ;;
          match shown with
          | None => ret (LoopFuel, es1)
          | Some es2 =>
              stop2 <- observe_stop k ;;
              if stop2 then ret (LoopDone, es2)
              else if mode_eqb (output_mode g) PROMETHEUS then
                emit PromEnd ;; ret (LoopDone, es2)
              else
                (if mode_eqb (output_mode g) INTERACTIVE
                 then process_stdin k period_us
                 else emit (Usleep period_us)) ;;
                main_loop fuel' k card codename period_us es2 w h
          end
  end.

Definition EXIT_SUCCESS : Z := 0.
Definition EXIT_FAILURE : Z := 1.

Inductive run_result :=
| Exited (code : Z) (trace : list out_event)
| Aborted
| OutOfFuel.

(** [main] from the discovery of the engines on, for the output mode, the
    period, the PMU device and the card names that the options and the
    device scan have selected. *)
Definition main (fuel : nat) (k : os) (m : output_mode_t) (period_us : Z)
  (pmu_device card codename : string) : run_result :=
  match discover_engines k pmu_device with
  | None => Exited EXIT_FAILURE []
  | Some es0 =>
      let '(r, es1) := pmu_init k es0 in
      if negb (r =? 0) then Exited EXIT_FAILURE []
      else
        let g0 := set_view (globals0 m) (mode_eqb m INTERACTIVE) None in
        match (es2 <- do_sample k es1 ;;
               main_loop fuel k card codename period_us es2 (-1) (-1)) g0 with
        | None => Aborted
        | Some ((LoopFuel, _), _) => OutOfFuel
        | Some ((LoopDone, _), g) => Exited EXIT_SUCCESS (out g)
        end
  end.


(** ** Notions used by the statements *)




(** The order that a comparison function of [qsort] stands for. *)
Definition cmp_le {A : Type} (cmp : A -> A -> Z) (x y : A) : Prop :=
  cmp x y <= 0.

(** The engines that a directory listing contributes, in listing order. *)
Fixpoint found_engines (k : os) (dents : list dirent) : list engine :=
  match dents with
  | [] => []
  | dent :: rest =>
      match scan_dirent k dent with
      | ScanEngine e => e :: found_engines k rest
      | _ => found_engines k rest
      end
  end.

Definition scan_ok (k : os) (dent : dirent) : Prop :=
  match scan_dirent k dent with
  | ScanError _ => False
  | _ => True
  end.


(** ** An example system

    An integrated GPU with one render engine and two video engines; every
    counter opens except the semaphore counters, and each grouped read
    returns a full buffer whose values grow with the number of the read. *)

Definition example_files (f : string) : option string :=
  if String.eqb f "rcs0-busy" then Some "config=0x0"%string
  else if String.eqb f "rcs0-wait" then Some "config=0x1"%string
  else if String.eqb f "vcs0-busy" then Some "config=0x100"%string
  else if String.eqb f "vcs1-busy" then Some "config=0x200"%string
  else None.

Definition example_listing : list dirent :=
  [ {| d_type := DT_REG; d_name := "vcs1-busy" |};
    {| d_type := DT_REG; d_name := "rcs0-busy" |};
    {| d_type := DT_REG; d_name := "rcs0-wait" |};
    {| d_type := 4; d_name := "." |};
    {| d_type := DT_REG; d_name := "vcs0-busy" |} ].

Fixpoint le_split (n : nat) (z : Z) : list Z :=
  match n with
  | O => []
  | S n' => z mod 256 :: le_split n' (z / 256)
  end.

Definition example_read (n : nat) (rfd count : Z) : read_result :=
  ReadBytes
    (flat_map (le_split 8)
       (count / 8 - 2 :: Z.of_nat n * 1000000000
          :: map (fun i => Z.of_nat n * 100000000 * (Z.of_nat i + 1))
                 (seq 0 (Z.to_nat (count / 8 - 2))))).

Definition example_os : os :=
  {| os_readdir := fun _ => Some example_listing;
     os_file := example_files;
     os_opendir := fun _ => None;
     os_perf_type_id := fun _ => 10;
     os_perf_open := fun n _ cfg _ =>
                       if cfg =? UINT64_MAX then -1 else Z.of_nat n + 3;
     os_read := example_read;
     os_sigint := fun _ => false;
     os_poll := fun _ => PollTimeout;
     os_winsize := fun _ => Some (80, 24);
     os_fmt_f_len := fun _ _ => 8 |}.

(** The engine table that discovery finds there. *)
Definition example_engines : engines :=
  Eval vm_compute in
    match discover_engines example_os "i915" with
    | Some es => es
    | None => engines0
    end.



(** The counters of an engine table, in the order in which [pmu_sample]
    visits them. *)
Definition engine_counters (e : engine) : list pmu_counter :=
  [busy e; sema e; wait e].

Definition counters_of (es : engines) : list pmu_counter :=
  [freq_req es; freq_act es; irq es; rc6 es]
    ++ flat_map engine_counters (engine_tab es)
    ++ [r_gpu es; r_pkg es; imc_reads es; imc_writes es].

(** What one sampling tick may do to a counter: nothing when it is absent,
    and otherwise at most a shift of [cur] into [prev] with a new [cur]. *)
Definition sample_step (c c' : pmu_counter) : Prop :=
  (present c = false -> c' = c) /\
  (c' = c \/ exists v, present c = true /\ c' = __update_sample c v).

(** The example system after [pmu_init]. *)
Definition example_engines_init : engines :=
  Eval vm_compute in snd (pmu_init example_os example_engines).

(** ** Notions used by the statements on class aggregation *)

Definition sum_of (g : engine -> Z) (l : list engine) : Z :=
  fold_right (fun e acc => g e + acc) 0 l.

Definition delta (c : pmu_counter) : Z := cur (val c) - prev (val c).

(** The real engines of the class of a class engine. *)
Definition members_of (tab : list engine) (ce : engine) : list engine :=
  filter (fun e => class e =? class ce) tab.

(** The values that the static variable of [update_class_engines] can
    hold after calls on engine tables whose engines have the classes
    [cls], in this order. *)
Inductive view_state (cls : list Z) : option engines -> Prop :=
| view_fresh : view_state cls None
| view_later static0 es0 es0' c0 :
    view_state cls static0 ->
    map class (engine_tab es0) = cls ->
    update_class_engines static0 es0 = Some (es0', c0) ->
    view_state cls (Some c0).

(** What the refresh leaves in the counter [f] of the class engine [ce]
    for the real engines [members]: both sums, reduced modulo 2^64, divided
    by the number of members. *)
Definition aggregated (f : engine -> pmu_counter) (ce : engine)
  (members : list engine) : Prop :=
  let n := Z.of_nat (List.length members) in
  val (f ce) =
    {| cur := u64 (sum_of (fun e => cur (val (f e))) members) / n;
       prev := u64 (sum_of (fun e => prev (val (f e))) members) / n |}.

(** The aggregation law as the specification words it, for one counter,
    with the quotient read as an integer quotient or as an exact mean. *)
Definition mean_of_deltas (f : engine -> pmu_counter) (ce : engine)
  (members : list engine) : Prop :=
  let n := Z.of_nat (List.length members) in
  delta (f ce) = sum_of (fun e => delta (f e)) members / n \/
  n * delta (f ce) = sum_of (fun e => delta (f e)) members.

(** How far the aggregated delta is from the mean of the deltas when the
    counters are monotone and their sum fits in 64 bits. *)
Definition near_mean (f : engine -> pmu_counter) (ce : engine)
  (members : list engine) : Prop :=
  Forall (fun e => 0 <= prev (val (f e)) <= cur (val (f e))) members ->
  sum_of (fun e => cur (val (f e))) members < 2 ^ 64 ->
  let n := Z.of_nat (List.length members) in
  let mean := sum_of (fun e => delta (f e)) members / n in
  mean <= delta (f ce) <= mean + 1 /\
  (sum_of (fun e => prev (val (f e))) members mod n = 0 ->
   delta (f ce) = mean).

(** Number of occurrences of a class in a column of classes. *)
Definition count_cls (cls : list Z) (x : Z) : Z :=
  Z.of_nat (List.length (filter (fun y => y =? x) cls)).

(** What every value of the static variable satisfies: the class table
    records, for each class engine, the number of real engines of its
    class, and every class of a real engine has its class engine. *)
Definition view_inv (cls : list Z) (c : engines) : Prop :=
  (forall ce, In ce (engine_tab c) ->
     ec_num_engines (nth (Z.to_nat (class ce)) (class_tab c) class0) =
       u32 (count_cls cls (class ce))) /\
  (forall x, In x cls -> 0 <= x < 2 ^ 31 ->
     Z.of_nat (List.length cls) < 2 ^ 32 ->
     In x (map class (engine_tab c))).

(** Two render engines: one whose busy counter went from 1 to 2, one idle. *)
Definition example_pair : engines :=
  set_engine_tab engines0
    [ set_counters engine0 1
        (set_val pmu0 {| cur := 2; prev := 1 |}) pmu0 pmu0;
      set_counters engine0 1 pmu0 pmu0 pmu0 ].

Definition example_pair_classes : engines :=
  Eval vm_compute in
    match update_class_engines None example_pair with
    | Some (_, c) => c
    | None => engines0
    end.

(** ** Notions used by the statements on the Prometheus names *)

(** The key of the specification: the source string lower-cased, with every
    character outside [a-z0-9] replaced by an underscore. *)
Definition spec_key (src : string) : string :=
  map_string (fun c => let c' := tolower c in
                       if is_key_char c' then c' else "_"%char) src.








(** The events of [prometheus_add_member] for one item. *)
Definition prom_item_events (k : os) (grp : cnt_group) (item : cnt_item)
  : list out_event :=
  match it_pmu item with
  | None => []
  | Some p =>
      if negb (present p) then []
      else
        let pk := parent_key_of (g_name grp) in
        let ik := item_key_of pk (it_name item) in
        [PromHelp pk ik (g_display_name grp) (it_name item)]
          ++ match it_unit item with
             | Some u => [PromHelpUnit u]
             | None => []
             end
          ++ [PromHelpEnd; PromType pk ik;
              PromSample pk ik (pmu_calc (val p) (it_d item) (it_t item)
                                         (it_s item))]
  end.

Definition prom_group_events (k : os) (grp : cnt_group) : list out_event :=
  if present_in_group grp =? 0 then []
  else flat_map (prom_item_events k grp) (g_items grp).

(** The groups of one sample in the modes other than JSON, for the engines
    shown. *)
Definition sample_groups (es : engines) (t : double) : list cnt_group :=
  [ freq_group es t; irq_group es t; rc6_group es t; power_group es t ]
    ++ (if num_imc es =? 0 then [] else [imc_group es t])
    ++ map (fun e => engine_group e t)
           (filter (fun e => negb (num_counters e =? 0)) (engine_tab es)).

(** One exposition snapshot. *)
Definition prom_snapshot (k : os) (es : engines) (t : double)
  : list out_event :=
  flat_map (prom_group_events k) (sample_groups es t).



(** The traces that a run in Prometheus mode can leave, by the point
    [stage] at which it stops: 0 when the run is interrupted before the loop
    is entered, 1 after the sample of the loop, 2 after the snapshot, 3 for
    a run that nothing interrupts.  The first sample is the priming sample
    that [main] takes before the loop. *)
Definition prometheus_trace (stage : nat) (period_us : Z)
  (snapshot : list out_event) : list out_event :=
  [Sampled]
    ++ (if (1 <=? stage)%nat then [Usleep period_us; Sampled] else [])
    ++ (if (2 <=? stage)%nat then snapshot else [])
    ++ (if (3 <=? stage)%nat then [PromEnd] else []).

(** ** Notions used by the statements on the plain-text rows *)

(** The events of [stdout_add_member] for item [i] of a group, in header
    mode 1 (group names), 2 (units) or 0 (data). *)
Definition stdout_item_events (grp : cnt_group) (i : nat) (item : cnt_item)
  (headers : Z) : list out_event :=
  match it_pmu item with
  | None => []
  | Some p =>
      if negb (present p) then []
      else if headers =? 1 then
        if negb (i =? 0)%nat then []
        else [StdoutGroupHeader (to_int (grp_tot_of grp - 1))
                                (g_display_name grp)]
      else if headers =? 2 then
        [StdoutUnitHeader (to_int (fmt_tot_of item))
           (match it_unit item with
            | Some u => u
            | None => it_name item
            end)]
      else
        [StdoutValue
           (BufNum (fmt_tot_of item + 1) (fmt_tot_of item)
                   (it_fmt_precision item)
                   (pmu_calc (val p) (it_d item) (it_t item) (it_s item)))]
  end.

Fixpoint stdout_items_events (grp : cnt_group) (i : nat)
  (items : list cnt_item) (headers : Z) : list out_event :=
  match items with
  | [] => []
  | item :: rest =>
      stdout_item_events grp i item headers
        ++ stdout_items_events grp (S i) rest headers
  end.

Definition stdout_group_events (headers : Z) (grp : cnt_group)
  : list out_event :=
  if present_in_group grp =? 0 then []
  else stdout_items_events grp 0 (g_items grp) headers.

(** One row of the plain-text output, without its newline. *)
Definition stdout_row (es : engines) (t : double) (headers : Z)
  : list out_event :=
  flat_map (stdout_group_events headers) (sample_groups es t).

(** The two header modes of [print_groups]. *)
Definition header_mode (h : Z) : Prop := h = 1 \/ h = 2.

(** The header mode that [print_groups] derives from [stdout_lines]:
    1 or 2 for the two header rows, 0 for a data row. *)
Definition pass_mode (lines : Z) : Z :=
  if lines mod 20 =? 0 then 1 else if lines mod 20 =? 1 then 2 else 0.

(** The value of [stdout_lines] before sample number [i], counted from
    0: 20 at the start, one more for each data row, two more for each pair
    of header rows. *)
Definition lines_at (i : Z) : Z := 20 + i + 2 * ((i + 17) / 18).

(** Some engine has a counter: the table has its "engines" structure. *)
Definition has_engine_counters (es : engines) : bool :=
  existsb (fun e => negb (num_counters e =? 0)) (engine_tab es).

(** What one sample (one iteration of the main loop) adds to the
    plain-text output when [with_headers] tells whether the two header rows
    come first. *)
Definition stdout_sample_rows (with_headers : bool) (es : engines)
  (t : double) : list out_event :=
  (if with_headers
   then stdout_row es t 1 ++ [StdoutNewline]
          ++ stdout_row es t 2 ++ [StdoutNewline]
   else [])
    ++ stdout_row es t 0 ++ [StdoutNewline].

(** The engine tables of [n] successive sampling ticks, when all their
    reads succeed. *)
Fixpoint sampled (k : os) (n rd : nat) (es : engines)
  : option (list engines) :=
  match n with
  | O => Some []
  | S n' =>
      match pmu_sample k rd es with
      | None => None
      | Some (es', rd') =>
          match sampled k n' rd' es' with
          | None => None
          | Some rest => Some (es' :: rest)
          end
      end
  end.

(** The trace of the iterations of the main loop in plain-text mode for
    the samples [ess], the first of which is sample number [i]: the header
    rows come with every sample whose number is a multiple of [p]. *)
Fixpoint stdout_trace (p : Z) (period_us : Z) (i : Z) (ess : list engines)
  : list out_event :=
  match ess with
  | [] => []
  | es :: rest =>
      [Sampled]
        ++ stdout_sample_rows (i mod p =? 0) es (sample_period es)
        ++ [Usleep period_us]
        ++ stdout_trace p period_us (i + 1) rest
  end.

Inductive row_kind := GroupNames | Units | Data | Mixed.

Definition event_kind (ev : out_event) : row_kind :=
  match ev with
  | StdoutGroupHeader _ _ => GroupNames
  | StdoutUnitHeader _ _ => Units
  | StdoutValue _ => Data
  | _ => Mixed
  end.

Definition kind_eqb (a b : row_kind) : bool :=
  match a, b with
  | GroupNames, GroupNames | Units, Units | Data, Data | Mixed, Mixed => true
  | _, _ => false
  end.

(** The kind of a row: that of its events when they agree. *)
Definition kind_of_row (row : list out_event) : row_kind :=
  match row with
  | [] => Mixed
  | ev :: rest =>
      if forallb (fun e => kind_eqb (event_kind e) (event_kind ev)) rest
      then event_kind ev else Mixed
  end.

Definition is_stdout_event (ev : out_event) : bool :=
  match ev with
  | StdoutGroupHeader _ _ | StdoutUnitHeader _ _ | StdoutValue _
  | StdoutNewline => true
  | _ => false
  end.

(** The rows of a trace: the plain-text events between newlines. *)
Fixpoint rows_of (evs : list out_event) (row : list out_event)
  : list (list out_event) :=
  match evs with
  | [] => match row with [] => [] | _ => [row] end
  | StdoutNewline :: rest => row :: rows_of rest []
  | ev :: rest =>
      if is_stdout_event ev then rows_of rest (row ++ [ev])
      else rows_of rest row
  end.

Definition row_kinds (evs : list out_event) : list row_kind :=
  map kind_of_row (rows_of evs []).

(** "Between two consecutive header-row pairs exactly [p] data rows are
    emitted": after a row of group names come a row of units, then [p] data
    rows, then (if the output goes on) a row of group names again. *)
Definition header_period (p : nat) (kinds : list row_kind) : Prop :=
  forall i, nth_error kinds i = Some GroupNames ->
    (S i < List.length kinds -> nth_error kinds (S i) = Some Units)%nat /\
    (forall j, (j < p)%nat -> (i + 2 + j < List.length kinds)%nat ->
               nth_error kinds (i + 2 + j) = Some Data) /\
    ((i + 2 + p < List.length kinds)%nat ->
     nth_error kinds (i + 2 + p) = Some GroupNames).

(** The plain-text run of the example system over [n] iterations. *)
Definition example_stdout_trace (n : nat) : list out_event :=
  match (es <- do_sample example_os example_engines_init ;;
         main_loop n example_os "card0" "Intel" 1000000 es (-1) (-1))%monad
          (globals0 STDOUT) with
  | Some (_, g) => out g
  | None => []
  end.

(** ** Notions used by the statements on initialisation *)






Definition engine_absent (e : engine) : Prop :=
  present (busy e) = false /\ present (wait e) = false /\
  present (sema e) = false.


(** The example system after [pmu_init] and one sampling tick. *)
Definition example_engines_sampled : engines :=
  Eval vm_compute in
    match pmu_sample example_os 0 example_engines_init with
    | Some (es, _) => es
    | None => engines0
    end.

(** The example system after a second sampling tick. *)
Definition example_engines_sampled2 : engines :=
  Eval vm_compute in
    match pmu_sample example_os 1 example_engines_sampled with
    | Some (es, _) => es
    | None => engines0
    end.

(** The counters of the engine group in the order in which [pmu_init]
    opens them. *)
Definition group_counters (es : engines) : list pmu_counter :=
  [irq es; freq_req es; freq_act es; rc6 es]
    ++ flat_map (fun e => [busy e; wait e; sema e]) (engine_tab es).

(** The present counters of [l] carry the group indexes [c], [c + 1], ...
    in order, and [cnt] is the next free index. *)
Definition counted (c : nat) (l : list pmu_counter) (cnt : Z) : Prop :=
  cnt = Z.of_nat (c + List.length (filter present l)) /\
  map idx (filter present l) =
    map Z.of_nat (seq c (List.length (filter present l))).

(** * Theorems *)

(** ** Rounding never turns a non-negative mantissa into a NaN *)

Section RoundingSign.
Variables prec emax : Z.

Lemma iter_pos_invariant {A : Type} (P : A -> Prop) (f : A -> A) :
  (forall x, P x -> P (f x)) ->
  forall n x, P x -> P (iter_pos f n x).
Proof.
  intros Hf; induction n as [n IH | n IH |]; intros x Hx; simpl; auto.
Qed.

Lemma shr_1_nonneg mrs : 0 <= shr_m mrs -> 0 <= shr_m (shr_1 mrs).
Proof.
  destruct mrs as [m r s]; simpl.
  destruct m as [| [p | p |] | p]; simpl; lia.
Qed.

Lemma shr_nonneg mrs e n : 0 <= shr_m mrs -> 0 <= shr_m (fst (shr mrs e n)).
Proof.
  intros H; destruct n as [| p | p]; simpl; auto.
  apply (iter_pos_invariant (fun r => 0 <= shr_m r)); auto using shr_1_nonneg.
Qed.

Lemma shr_record_of_loc_m m l : shr_m (shr_record_of_loc m l) = m.
Proof. destruct l as [| []]; reflexivity. Qed.

Lemma shr_fexp_nonneg m e l :
  0 <= m -> 0 <= shr_m (fst (shr_fexp prec emax m e l)).
Proof.
  intros H; unfold shr_fexp; apply shr_nonneg.
  now rewrite shr_record_of_loc_m.
Qed.

Lemma round_nearest_even_nonneg m l : 0 <= m -> 0 <= round_nearest_even m l.
Proof.
  intros H; destruct l as [| []]; simpl; try lia.
  destruct (Z.even m); lia.
Qed.

Lemma binary_round_aux_sign sx mx ex lx :
  0 <= mx -> nonneg (binary_round_aux prec emax sx mx ex lx) = negb sx.
Proof.
  intros H; unfold binary_round_aux.
  pose proof (shr_fexp_nonneg mx ex lx H) as H1.
  destruct (shr_fexp prec emax mx ex lx) as [mrs' e'] eqn:E1; simpl in H1.
  pose proof (shr_fexp_nonneg
                (round_nearest_even (shr_m mrs') (loc_of_shr_record mrs'))
                e' loc_Exact (round_nearest_even_nonneg _ _ H1)) as H2.
  destruct (shr_fexp prec emax _ e' loc_Exact) as [mrs'' e''] eqn:E2.
  simpl in H2.
  destruct (shr_m mrs'') as [| m | m]; try lia; simpl; auto.
  destruct (e'' <=? emax - prec); reflexivity.
Qed.

Lemma binary_normalize_nonneg z e :
  0 <= z -> nonneg (binary_normalize prec emax z e false) = true.
Proof.
  intros H; destruct z as [| m | m]; try lia; simpl; auto.
  unfold binary_round.
  destruct (shl_align m e _) as [mz ez].
  now rewrite binary_round_aux_sign.
Qed.

Lemma SFdiv_core_binary_nonneg mx ex my ey :
  0 <= fst (fst (SFdiv_core_binary prec emax (Zpos mx) ex (Zpos my) ey)).
Proof.
  unfold SFdiv_core_binary.
  set (s := _ - _ - _).
  set (m' := match s with Z0 => Zpos mx | Zpos _ => _ | Zneg _ => 0 end).
  assert (Hm : 0 <= m').
  { subst m'; destruct s; try lia. apply Z.shiftl_nonneg; lia. }
  pose proof (Z.div_pos m' (Zpos my) Hm ltac:(lia)) as Hq.
  unfold Z.div in Hq.
  destruct (Z.div_eucl m' (Zpos my)) as [q r]; simpl; exact Hq.
Qed.

Lemma SFdiv_nonneg x y :
  nonneg x = true -> pos_finite y = true ->
  nonneg (SFdiv prec emax x y) = true.
Proof.
  destruct y as [| | | [] my ey]; try discriminate; intros Hx _.
  destruct x as [[] | [] | | [] mx ex]; try discriminate; simpl; auto.
  pose proof (SFdiv_core_binary_nonneg mx ex my ey) as H.
  destruct (SFdiv_core_binary prec emax (Zpos mx) ex (Zpos my) ey)
    as [[mz ez] lz]; simpl in H.
  now rewrite binary_round_aux_sign.
Qed.

Lemma SFmul_nonneg x y :
  nonneg x = true -> pos_finite y = true ->
  nonneg (SFmul prec emax x y) = true.
Proof.
  destruct y as [| | | [] my ey]; try discriminate; intros Hx _.
  destruct x as [[] | [] | | [] mx ex]; try discriminate; simpl; auto.
  rewrite binary_round_aux_sign; [reflexivity | lia].
Qed.
End RoundingSign.

(** ** Order facts on doubles *)

Lemma SFcompare_antisym x y c :
  SFcompare x y = Some c -> SFcompare y x = Some (CompOpp c).
Proof.
  destruct x as [sx | sx | | sx mx ex], y as [sy | sy | | sy my ey];
    simpl; try discriminate;
    try (destruct sx); try (destruct sy);
    intros H; inversion H; subst; clear H; try reflexivity.
  - rewrite (Z.compare_antisym ex ey).
    destruct (ex ?= ey); simpl; try reflexivity.
    now rewrite (Pos.compare_cont_antisym mx my Eq).
  - rewrite (Z.compare_antisym ex ey).
    destruct (ex ?= ey); simpl; try reflexivity.
    now rewrite (Pos.compare_cont_antisym mx my Eq).
Qed.

Lemma dleb_zero_nonneg x : nonneg x = true -> dleb dzero x = true.
Proof. destruct x as [[] | [] | | [] m e]; try discriminate; reflexivity. Qed.

Lemma not_dltb_dleb x y :
  nonneg x = true -> nonneg y = true -> dltb x y = false -> dleb y x = true.
Proof.
  unfold dltb, dleb, SFltb, SFleb; intros Hx Hy H.
  destruct (SFcompare x y) as [c |] eqn:E.
  - rewrite (SFcompare_antisym _ _ _ E). destruct c; try discriminate; auto.
  - destruct x, y; simpl in *; try discriminate;
      repeat match goal with s : bool |- _ => destruct s end;
      simpl in *; discriminate.
Qed.


(** ** Discovery *)

Section Sorting.
Context {A : Type} (cmp : A -> A -> Z).

Lemma qsort_insert_perm x l : Permutation (qsort_insert cmp x l) (x :: l).
Proof.
  induction l as [| y l IH]; simpl; auto.
  destruct (cmp x y <=? 0); auto.
  rewrite IH. apply perm_swap.
Qed.

Lemma qsort_perm l : Permutation (qsort cmp l) l.
Proof.
  induction l as [| x l IH]; simpl; auto.
  rewrite qsort_insert_perm. now constructor.
Qed.

Lemma qsort_in x l : In x (qsort cmp l) <-> In x l.
Proof.
  split; apply Permutation_in;
    [apply qsort_perm | apply Permutation_sym, qsort_perm].
Qed.

Variable dom : A -> Prop.
Hypothesis cmp_total :
  forall x y, dom x -> dom y -> cmp x y <= 0 \/ cmp y x <= 0.


End Sorting.


Lemma to_int_small z : - 2 ^ 31 <= z < 2 ^ 31 -> to_int z = z.
Proof.
  intros H; unfold to_int, u32.
  destruct (Z.ltb_spec (z mod 2 ^ 32) (2 ^ 31)) as [L | L].
  - destruct (Z.lt_ge_cases z 0) as [N | N].
    + rewrite <- (Z.mod_unique z (2 ^ 32) (-1) (z + 2 ^ 32)) in L; lia.
    + rewrite Z.mod_small in *; lia.
  - destruct (Z.lt_ge_cases z 0) as [N | N].
    + rewrite <- (Z.mod_unique z (2 ^ 32) (-1) (z + 2 ^ 32)); lia.
    + rewrite Z.mod_small in *; lia.
Qed.


Lemma get_pmu_config_range k nm counter :
  0 <= get_pmu_config k nm counter <= UINT64_MAX.
Proof.
  assert (Hp : forall base s acc, 0 <= base -> 0 <= acc ->
                                  0 <= parse_digits base s acc).
  { intros base s; induction s as [| c s IH]; simpl; intros acc Hb Ha; auto.
    destruct (digit_val c) as [d |] eqn:D; auto.
    destruct (d <? base); auto. apply IH; auto.
    assert (0 <= d).
    { unfold digit_val in D.
      repeat match type of D with
             | (if ?b then _ else _) = _ => destruct b eqn:?
             end; inversion D; lia. }
    nia. }
  assert (Hs : forall p, 0 <= strtoul0 p <= UINT64_MAX).
  { intros p; unfold strtoul0, UINT64_MAX.
    match goal with |- 0 <= Z.min ?v _ <= _ => assert (0 <= v) end.
    { destruct p as [| c0 [| x [| h rest]]]; try (apply Hp; lia).
      destruct (Ascii.eqb x "x" || Ascii.eqb x "X")%bool; [| apply Hp; lia].
      destruct (digit_val h); [apply Hp; lia | lia]. }
    lia. }
  unfold get_pmu_config.
  assert (0 <= UINT64_MAX <= UINT64_MAX) by (unfold UINT64_MAX; lia).
  repeat match goal with
         | |- context [if ?b then _ else _] => destruct b
         | |- context [match ?o with Some _ => _ | None => _ end] => destruct o
         end; auto.
Qed.

Lemma engine_instance_of_config_range c :
  0 <= c -> 0 <= engine_instance_of_config c < 256.
Proof.
  intros H; unfold engine_instance_of_config, u32.
  change (Z.shiftl 1 I915_PMU_SAMPLE_INSTANCE_BITS - 1) with (Z.ones 8).
  rewrite Z.land_ones by lia.
  pose proof (Z.mod_pos_bound (Z.shiftr c I915_PMU_SAMPLE_BITS) (2 ^ 8)).
  rewrite Z.mod_small; lia.
Qed.

Lemma engine_class_of_config_zero c :
  0 <= c -> engine_class_of_config c = 0.
Proof.
  intros H; unfold engine_class_of_config.
  change (__I915_PMU_OTHER 0 - 1) with (Z.ones 16).
  rewrite Z.land_ones by lia.
  rewrite Z.shiftr_div_pow2 by (unfold I915_PMU_CLASS_SHIFT; lia).
  pose proof (Z.mod_pos_bound c (2 ^ 16)).
  rewrite Z.div_small by (unfold I915_PMU_CLASS_SHIFT; lia).
  reflexivity.
Qed.

(** What [scan_dirent] records for an engine. *)
Lemma scan_dirent_engine k dent e :
  scan_dirent k dent = ScanEngine e ->
  let c := get_pmu_config k (name e) "busy" in
  config (busy e) = c /\ c <> UINT64_MAX /\
  class e = engine_class_of_config c /\
  instance e = engine_instance_of_config c /\
  display_name e = str_append3 (class_display_name (class e)) "/"
                               (utoa (instance e)) /\
  d_name dent = (name e ++ "-busy")%string.
Proof.
  unfold scan_dirent.
  destruct (negb (d_type dent =? DT_REG)); try discriminate.
  destruct (256 <=? String.length (d_name dent))%nat; try discriminate.
  destruct (String.length (d_name dent) <? 5 + 4)%nat eqn:L; try discriminate.
  destruct (ends_with_busy (d_name dent)) eqn:B; try discriminate; simpl.
  destruct (Z.eqb_spec
              (get_pmu_config k
                 (substring 0 (String.length (d_name dent) - 5) (d_name dent))
                 "busy") UINT64_MAX) as [E | E]; try discriminate.
  intros H; inversion H; subst; clear H; simpl.
  repeat split; auto.
  apply Nat.ltb_ge in L.
  unfold ends_with_busy in B. apply String.eqb_eq in B.
  rewrite <- B.
  clear - L. revert L. generalize (d_name dent) as s.
  assert (G : forall n s, (n <= String.length s)%nat ->
     s = (substring 0 n s ++ substring n (String.length s - n) s)%string).
  { induction n as [| n IH]; intros s Hs.
    - simpl. rewrite Nat.sub_0_r.
      clear. induction s as [| c s IH]; simpl; auto.
      destruct s; simpl in *; auto; now rewrite <- IH.
    - destruct s as [| c s]; simpl in *; [lia |].
      rewrite <- IH by lia. reflexivity. }
  intros s Hs.
  rewrite (G (String.length s - 5)%nat s) at 1 by lia.
  do 2 f_equal. lia.
Qed.




Lemma found_engines_in k l e :
  In e (found_engines k l) ->
  exists dent, In dent l /\ scan_dirent k dent = ScanEngine e.
Proof.
  induction l as [| d l IH]; simpl; [tauto |].
  destruct (scan_dirent k d) eqn:E; simpl; intros H;
    try (destruct (IH H) as (x & ? & ?); exists x; auto).
  destruct H as [-> | H]; [exists d; auto |].
  destruct (IH H) as (x & ? & ?); exists x; auto.
Qed.


Lemma readdir_loop_ok k l acc :
  Forall (scan_ok k) l ->
  readdir_loop k l acc = (0, acc ++ found_engines k l).
Proof.
  revert acc; induction l as [| d l IH]; simpl; intros acc H.
  - now rewrite app_nil_r.
  - inversion H as [| ? ? Hd Hl]; subst. unfold scan_ok in Hd.
    destruct (scan_dirent k d); try tauto; rewrite IH by auto; auto.
    now rewrite <- app_assoc.
Qed.

Lemma readdir_loop_error k l acc :
  ~ Forall (scan_ok k) l -> fst (readdir_loop k l acc) <> 0.
Proof.
  revert acc; induction l as [| d l IH]; simpl; intros acc H.
  - exfalso; apply H; constructor.
  - destruct (scan_dirent k d) eqn:E.
    + apply IH. intros F; apply H; constructor; auto.
      unfold scan_ok; now rewrite E.
    + simpl. unfold scan_dirent in E.
      repeat match type of E with
             | (if ?b then _ else _) = _ => destruct b
             end; inversion E; discriminate.
    + apply IH. intros F; apply H; constructor; auto.
      unfold scan_ok; now rewrite E.
Qed.

Lemma scan_ok_dec k l : Forall (scan_ok k) l \/ ~ Forall (scan_ok k) l.
Proof.
  induction l as [| d l [IH | IH]].
  - left; constructor.
  - unfold scan_ok at 1. destruct (scan_dirent k d) eqn:E.
    + left; constructor; auto. unfold scan_ok; now rewrite E.
    + right; intros F; inversion F as [| ? ? Hd _]; subst.
      unfold scan_ok in Hd; now rewrite E in Hd.
    + left; constructor; auto. unfold scan_ok; now rewrite E.
  - right; intros F; inversion F; auto.
Qed.

(** The table that discovery returns, and when it returns one. *)
Lemma discover_engines_spec k dev :
  match os_readdir k (sysfs_root dev) with
  | None => discover_engines k dev = None
  | Some l =>
      (Forall (scan_ok k) l /\
       exists es, discover_engines k dev = Some es /\
                  engine_tab es = qsort engine_cmp (found_engines k l) /\
                  device es = dev /\ discrete es = negb (is_igpu dev) /\
                  irq es = pmu0 /\ freq_req es = pmu0 /\ freq_act es = pmu0 /\
                  rc6 es = pmu0 /\ r_gpu es = pmu0 /\ r_pkg es = pmu0 /\
                  imc_reads es = pmu0 /\ imc_writes es = pmu0 /\
                  num_rapl es = 0 /\ num_imc es = 0) \/
      (~ Forall (scan_ok k) l /\ discover_engines k dev = None)
  end.
Proof.
  unfold discover_engines.
  destruct (os_readdir k (sysfs_root dev)) as [l |]; auto.
  destruct (scan_ok_dec k l) as [F | F].
  - left; split; auto. rewrite (readdir_loop_ok k l [] F); simpl.
    eexists; split; [reflexivity |]. simpl. repeat split; reflexivity.
  - right; split; auto.
    pose proof (readdir_loop_error k l [] F) as E.
    destruct (readdir_loop k l []) as [r found]; simpl in E.
    destruct (Z.eqb_spec r 0); [contradiction | reflexivity].
Qed.

Lemma discover_engines_in k dev es e :
  discover_engines k dev = Some es -> In e (engine_tab es) ->
  exists l dent, os_readdir k (sysfs_root dev) = Some l /\ In dent l /\
                 scan_dirent k dent = ScanEngine e.
Proof.
  intros D I. pose proof (discover_engines_spec k dev) as S.
  destruct (os_readdir k (sysfs_root dev)) as [l |]; [| congruence].
  destruct S as [(_ & es' & D' & T & _) | (_ & D')]; [| congruence].
  rewrite D in D'; inversion D'; subst es'.
  rewrite T in I. apply (proj1 (qsort_in _ _ _)) in I.
  destruct (found_engines_in _ _ _ I) as (dent & ? & ?).
  exists l, dent; auto.
Qed.







Lemma discovered_engines_absent k dev es :
  discover_engines k dev = Some es ->
  device es = dev /\ present (irq es) = false /\
  present (freq_req es) = false /\ present (freq_act es) = false /\
  present (rc6 es) = false /\ Forall engine_absent (engine_tab es).
Proof.
  intros D. pose proof (discover_engines_spec k dev) as S.
  destruct (os_readdir k (sysfs_root dev)) as [l |]; [| congruence].
  destruct S as [(_ & es' & D' & T & Hd & _ & Hi & Hq & Ha & Hr & _)
                | (_ & D')]; [| congruence].
  rewrite D in D'; inversion D'; subst es'.
  rewrite Hi, Hq, Ha, Hr. repeat split; auto.
  apply Forall_forall. intros e He.
  destruct (discover_engines_in _ _ _ _ D He) as (l' & dent & _ & _ & Sc).
  unfold scan_dirent in Sc.
  repeat match type of Sc with
         | (if ?b then _ else _) = _ => destruct b
         end; inversion Sc; subst e; repeat split; reflexivity.
Qed.

(** ** C4: class and instance of a discovered engine *)

(** C4. For every engine of the table that discovery returns, with c the
    64-bit config read from its <stem>-busy event, the class is
    (c & (OTHER_BASE - 1)) >> 16 with OTHER_BASE = 1 << 16 and the
    instance is (c >> 8) & 0xff. *)
Theorem discovered_engine_class_instance k dev es e :
  discover_engines k dev = Some es -> In e (engine_tab es) ->
  let c := get_pmu_config k (name e) "busy" in
  config (busy e) = c /\ 0 <= c < 2 ^ 64 /\
  class e = Z.shiftr (Z.land c (Z.shiftl 1 16 - 1)) 16 /\
  instance e = Z.land (Z.shiftr c 8) 255.
Proof.
  intros D I.
  destruct (discover_engines_in _ _ _ _ D I) as (l & dent & _ & _ & S).
  pose proof (scan_dirent_engine _ _ _ S) as (Hc & Hn & Hcl & Hi & _).
  pose proof (get_pmu_config_range k (name e) "busy") as R.
  cbv zeta. repeat split; auto; try (unfold UINT64_MAX in *; lia).
  - rewrite Hcl. unfold engine_class_of_config, u32.
    change (__I915_PMU_OTHER 0 - 1) with (Z.shiftl 1 16 - 1).
    change I915_PMU_CLASS_SHIFT with 16.
    pose proof (engine_class_of_config_zero _ (proj1 R)) as Z0.
    unfold engine_class_of_config, u32 in Z0.
    change (__I915_PMU_OTHER 0 - 1) with (Z.shiftl 1 16 - 1) in Z0.
    change I915_PMU_CLASS_SHIFT with 16 in Z0.
    apply Z.mod_small.
    change (Z.shiftl 1 16 - 1) with (Z.ones 16).
    rewrite Z.land_ones, Z.shiftr_div_pow2 by lia.
    pose proof (Z.mod_pos_bound (get_pmu_config k (name e) "busy") (2 ^ 16)).
    rewrite Z.div_small; lia.
  - rewrite Hi.
    pose proof (engine_instance_of_config_range _ (proj1 R)) as B.
    unfold engine_instance_of_config, u32 in *.
    change (Z.shiftl 1 I915_PMU_SAMPLE_INSTANCE_BITS - 1) with 255 in *.
    change I915_PMU_SAMPLE_BITS with 8 in *.
    apply Z.mod_small.
    change 255 with (Z.ones 8). rewrite Z.land_ones by lia.
    pose proof (Z.mod_pos_bound
                  (Z.shiftr (get_pmu_config k (name e) "busy") 8) (2 ^ 8)).
    lia.
Qed.

Lemma discovered_engine_class_instance_witness :
  let e := nth 2 (engine_tab example_engines) engine0 in
  let c := get_pmu_config example_os (name e) "busy" in
  config (busy e) = c /\ 0 <= c < 2 ^ 64 /\
  class e = Z.shiftr (Z.land c (Z.shiftl 1 16 - 1)) 16 /\
  instance e = Z.land (Z.shiftr c 8) 255.
Proof.
  apply (discovered_engine_class_instance example_os "i915" example_engines).
  - vm_compute; reflexivity.
  - simpl; auto.
Defined.

(** ** C9: discovery is deterministic *)




(** ** C5: the layout of a grouped read *)

Lemma firstn_all_length {A : Type} (l : list A) :
  firstn (List.length l) l = l.
Proof. induction l; simpl; congruence. Qed.

Lemma do_read_full k n rfd count bs :
  os_read k n rfd (Z.of_nat count) = ReadBytes bs ->
  List.length bs = count ->
  do_read k n rfd count = (Z.of_nat count, bs).
Proof.
  intros R L; unfold do_read; rewrite R.
  rewrite <- L, firstn_all_length, Nat.sub_diag, app_nil_r. reflexivity.
Qed.

Lemma do_read_short k n rfd count :
  (os_read k n rfd (Z.of_nat count) = ReadFail \/
   exists bs, os_read k n rfd (Z.of_nat count) = ReadBytes bs /\
              (List.length bs < count)%nat) ->
  fst (do_read k n rfd count) <> Z.of_nat count.
Proof.
  unfold do_read; intros [R | (bs & R & L)]; rewrite R; simpl; [lia |].
  rewrite length_firstn. lia.
Qed.

Lemma pmu_read_multi_some k n rfd num v stamp vals :
  pmu_read_multi k n rfd num v = Some (stamp, vals) ->
  exists bs,
    os_read k n rfd (Z.of_nat (8 * (2 + num))) = ReadBytes bs /\
    (8 * (2 + num) <= List.length bs)%nat /\
    stamp = word_at (firstn (8 * (2 + num)) bs) 1.
Proof.
  unfold pmu_read_multi, do_read.
  generalize (8 * (2 + num))%nat as size; intros size.
  destruct (os_read k n rfd (Z.of_nat size)) as [| bs].
  - destruct (Z.eqb_spec (-1) (Z.of_nat size)); [lia | discriminate].
  - destruct (Z.eqb_spec (Z.of_nat (List.length (firstn size bs)))
                         (Z.of_nat size)) as [E | E]; [| discriminate].
    apply Nat2Z.inj in E. rewrite E, Nat.sub_diag, app_nil_r.
    intros H; inversion H; subst; clear H.
    exists bs. split; [reflexivity |].
    rewrite length_firstn in E. split; [lia | reflexivity].
Qed.

Lemma counted_app c l1 l2 c1 cnt :
  counted c l1 (Z.of_nat c1) -> counted c1 l2 cnt -> counted c (l1 ++ l2) cnt.
Proof.
  intros (E1 & I1) (E2 & I2). apply Nat2Z.inj in E1. subst c1.
  unfold counted. rewrite filter_app, length_app, map_app, seq_app, map_app.
  split; [rewrite E2; f_equal; lia | now rewrite I1, I2].
Qed.

Lemma open_pmu_counted k n ty c pmu gfd :
  present pmu = false -> Z.of_nat c + 1 < 2 ^ 32 ->
  counted c [snd (fst (snd (_open_pmu k n ty (Z.of_nat c) pmu gfd)))]
          (fst (fst (snd (_open_pmu k n ty (Z.of_nat c) pmu gfd)))).
Proof.
  intros P B. unfold _open_pmu, counted.
  destruct (0 <=? os_perf_open k n ty (config pmu) gfd);
    cbn [fst snd filter present set_opened List.length map seq idx].
  - unfold u32. rewrite Z.mod_small by lia. split; [lia | reflexivity].
  - rewrite P. cbn [List.length map seq]. split; [f_equal; lia | reflexivity].
Qed.

Lemma init_engine_counter_counted k n ty nm counter c pmu gfd ncnt :
  present pmu = false -> Z.of_nat c + 1 < 2 ^ 32 ->
  exists cnt' pmu' gfd' ncnt',
    init_engine_counter k n ty nm counter (Z.of_nat c) pmu gfd ncnt =
      (cnt', pmu', gfd', ncnt') /\
    counted c [pmu'] cnt'.
Proof.
  intros P B. unfold init_engine_counter.
  set (pmu1 := if config pmu =? 0 then _ else pmu).
  assert (P1 : present pmu1 = false)
    by (unfold pmu1; destruct (config pmu =? 0); auto).
  pose proof (open_pmu_counted k n ty c pmu1 gfd P1 B) as C.
  destruct (_open_pmu k n ty (Z.of_nat c) pmu1 gfd) as [r [[cnt' pmu'] gfd']].
  do 4 eexists. split; [reflexivity | exact C].
Qed.

Lemma counted_length c l cnt :
  counted c l cnt -> exists c', cnt = Z.of_nat c' /\ (c' <= c + List.length l)%nat.
Proof.
  intros (E & _). eexists; split; [exact E |].
  pose proof (filter_length_le present l). lia.
Qed.

Lemma init_engine_counted k n ty c gfd e :
  engine_absent e -> Z.of_nat c + 3 < 2 ^ 32 ->
  exists cnt' gfd' e',
    init_engine k n ty (Z.of_nat c) gfd e = (cnt', gfd', e') /\
    counted c [busy e'; wait e'; sema e'] cnt'.
Proof.
  intros (Pb & Pw & Ps) B. unfold init_engine.
  destruct (init_engine_counter_counted k n ty (name e) "busy" c (busy e) gfd
              (num_counters e) Pb) as (c1 & b & f1 & n1 & E1 & C1); [lia |].
  rewrite E1. destruct (counted_length _ _ _ C1) as (c1' & -> & L1).
  cbn [List.length] in L1.
  destruct (init_engine_counter_counted k (n + 1) ty (name e) "wait" c1'
              (wait e) f1 n1 Pw) as (c2 & w & f2 & n2 & E2 & C2); [lia |].
  rewrite E2. destruct (counted_length _ _ _ C2) as (c2' & -> & L2).
  cbn [List.length] in L2.
  destruct (init_engine_counter_counted k (n + 2) ty (name e) "sema" c2'
              (sema e) f2 n2 Ps) as (c3 & s & f3 & n3 & E3 & C3); [lia |].
  rewrite E3.
  do 3 eexists. split; [reflexivity |]. cbn [busy wait sema set_counters].
  change [b; w; s] with ([b] ++ [w] ++ [s]).
  eapply counted_app; [exact C1 |].
  eapply counted_app; [exact C2 | exact C3].
Qed.

Lemma init_engines_counted k ty tab : forall n c gfd,
  Forall engine_absent tab ->
  Z.of_nat c + 3 * Z.of_nat (List.length tab) < 2 ^ 32 ->
  exists cnt' gfd' tab',
    init_engines k n ty (Z.of_nat c) gfd tab = (cnt', gfd', tab') /\
    counted c (flat_map (fun e => [busy e; wait e; sema e]) tab') cnt'.
Proof.
  induction tab as [| e tab IH]; intros n c gfd Ha B; cbn [init_engines].
  - do 3 eexists. split; [reflexivity |]. unfold counted; simpl.
    split; [f_equal; lia | reflexivity].
  - inversion Ha as [| ? ? He Ht]; subst. cbn [List.length] in B.
    destruct (init_engine_counted k n ty c gfd e He)
      as (c1 & f1 & e' & E & C); [lia |].
    rewrite E.
    destruct (counted_length _ _ _ C) as (c1' & -> & L1).
    cbn [List.length] in L1.
    destruct (IH (n + 3)%nat c1' f1 Ht) as (c2 & f2 & tab' & E' & C');
      [lia |].
    rewrite E'. do 3 eexists. split; [reflexivity |].
    cbn [flat_map]. eapply counted_app; [exact C | exact C'].
Qed.

(** After a successful [pmu_init] the counter count of the engine group is
    the number of its present counters, and these carry the group indexes
    0, 1, ... in the order in which they were opened. *)
Lemma pmu_init_counted k es0 es1 :
  present (irq es0) = false -> present (freq_req es0) = false ->
  present (freq_act es0) = false -> present (rc6 es0) = false ->
  Forall engine_absent (engine_tab es0) ->
  4 + 3 * Z.of_nat (List.length (engine_tab es0)) < 2 ^ 32 ->
  pmu_init k es0 = (0, es1) ->
  counted 0 (group_counters es1) (es_num_counters es1).
Proof.
  intros Pi Pq Pa Pr Pe B. unfold pmu_init.
  set (ty := os_perf_type_id k (device es0)).
  pose proof (open_pmu_counted k 0 ty 0
                (set_config (irq es0) I915_PMU_INTERRUPTS) (-1) Pi) as C0.
  change (Z.of_nat 0) with 0 in C0.
  destruct (_open_pmu k 0 ty 0 _ (-1)) as [fd0 [[c0 irq'] f0]].
  cbn [fst snd] in C0. specialize (C0 ltac:(lia)).
  destruct (fd0 <? 0); [intros H; inversion H |].
  destruct (counted_length _ _ _ C0) as (c0' & -> & L0).
  pose proof (open_pmu_counted k 1 ty c0'
                (set_config (freq_req es0) I915_PMU_REQUESTED_FREQUENCY) f0 Pq)
    as C1.
  destruct (_open_pmu k 1 ty (Z.of_nat c0') _ f0) as [r1 [[c1 req'] f1]].
  cbn [fst snd List.length] in C1, L0. specialize (C1 ltac:(lia)).
  destruct (counted_length _ _ _ C1) as (c1' & -> & L1).
  pose proof (open_pmu_counted k 2 ty c1'
                (set_config (freq_act es0) I915_PMU_ACTUAL_FREQUENCY) f1 Pa)
    as C2.
  destruct (_open_pmu k 2 ty (Z.of_nat c1') _ f1) as [r2 [[c2 act'] f2]].
  cbn [fst snd List.length] in C2, L1. specialize (C2 ltac:(lia)).
  destruct (counted_length _ _ _ C2) as (c2' & -> & L2).
  pose proof (open_pmu_counted k 3 ty c2'
                (set_config (rc6 es0) I915_PMU_RC6_RESIDENCY) f2 Pr) as C3.
  destruct (_open_pmu k 3 ty (Z.of_nat c2') _ f2) as [r3 [[c3 rc6'] f3]].
  cbn [fst snd List.length] in C3, L2. specialize (C3 ltac:(lia)).
  destruct (counted_length _ _ _ C3) as (c3' & -> & L3).
  cbn [List.length] in L3.
  destruct (init_engines_counted k ty (engine_tab es0) 4 c3' f3 Pe)
    as (c4 & f4 & tab' & E4 & C4); [lia |].
  rewrite E4.
  destruct (if discrete es0 then _ else _) as [[[n5 gpu'] rfd1] nr1].
  destruct (if discrete es0 then _ else _) as [[[n6 pkg'] rfd2] nr2].
  destruct (imc_open k n6 _ _ _ _) as [[[n7 rd'] ifd1] ni1].
  destruct (imc_open k n7 _ _ _ _) as [[[n8 wr'] ifd2] ni2].
  intros H; inversion H; subst es1; clear H.
  unfold group_counters.
  cbn [irq freq_req freq_act rc6 engine_tab es_num_counters].
  change [irq'; req'; act'; rc6'] with ([irq'] ++ [req'] ++ [act'] ++ [rc6']).
  rewrite <- !app_assoc.
  eapply counted_app; [exact C0 |].
  eapply counted_app; [exact C1 |].
  eapply counted_app; [exact C2 |].
  eapply counted_app; [exact C3 | exact C4].
Qed.

(** C5. A grouped read of a group of [num] counters asks for (2 + num)
    64-bit words.  When the kernel delivers exactly (2 + num) * 8 bytes, the
    value returned is word 1 and the value that a present counter of group
    index i receives is word 2 + i; when the read fails or delivers fewer
    bytes, the assertion fails and nothing is accepted.  A sampling tick
    that completes has read (2 + N) words for the counter count N of the
    engine group and has taken word 1 as the sampling timestamp; after
    discovery and a successful [pmu_init] that count is the number of
    present counters of the group, whose group indexes are 0, ..., N - 1 in
    opening order. *)
Theorem pmu_read_multi_layout k n rfd num v :
  let size := (8 * (2 + num))%nat in
  (forall bs,
      os_read k n rfd (Z.of_nat size) = ReadBytes bs ->
      List.length bs = size ->
      exists vals,
        pmu_read_multi k n rfd num v = Some (word_at bs 1, vals) /\
        (forall i, (i < num)%nat -> nth i vals 0 = word_at bs (2 + i)) /\
        (forall c, present c = true -> 0 <= idx c < Z.of_nat num ->
                   val (update_sample c vals) =
                     {| cur := word_at bs (2 + Z.to_nat (idx c));
                        prev := cur (val c) |})) /\
  (os_read k n rfd (Z.of_nat size) = ReadFail \/
   (exists bs, os_read k n rfd (Z.of_nat size) = ReadBytes bs /\
               (List.length bs < size)%nat) ->
   pmu_read_multi k n rfd num v = None) /\
  (forall es es' n',
      pmu_sample k n es = Some (es', n') ->
      let words := (2 + Z.to_nat (es_num_counters es))%nat in
      exists bs,
        os_read k n (fd es) (Z.of_nat (8 * words)) = ReadBytes bs /\
        (8 * words <= List.length bs)%nat /\
        ts es' = {| cur := word_at (firstn (8 * words) bs) 1;
                    prev := cur (ts es) |}) /\
  (forall dev es0 es1,
      discover_engines k dev = Some es0 ->
      4 + 3 * Z.of_nat (List.length (engine_tab es0)) < 2 ^ 32 ->
      pmu_init k es0 = (0, es1) ->
      counted 0 (group_counters es1) (es_num_counters es1)).
Proof.
  cbv zeta; split; [| split; [| split]].
  - intros bs R L. unfold pmu_read_multi.
    rewrite (do_read_full _ _ _ _ _ R L), Z.eqb_refl.
    eexists; split; [reflexivity |].
    assert (N : forall i, (i < num)%nat ->
              nth i (map (fun i => word_at bs (2 + i)) (seq 0 num)
                       ++ skipn num v) 0 = word_at bs (2 + i)).
    { intros i Hi. rewrite app_nth1 by (rewrite length_map, length_seq; lia).
      rewrite (nth_indep _ 0 (word_at bs (2 + 0)))
        by (rewrite length_map, length_seq; lia).
      rewrite (map_nth (fun i => word_at bs (2 + i))).
      now rewrite seq_nth by lia. }
    split; auto.
    intros c Hp Hi. unfold update_sample; rewrite Hp. simpl.
    rewrite N by lia. reflexivity.
  - intros H. unfold pmu_read_multi.
    pose proof (do_read_short _ _ _ _ H) as S.
    destruct (do_read k n rfd (8 * (2 + num))) as [len buf]; cbn [fst] in S.
    destruct (Z.eqb_spec len (Z.of_nat (8 * (2 + num)))); congruence.
  - intros es es' n' H. unfold pmu_sample in H.
    destruct (pmu_read_multi k n (fd es) _ _) as [[stamp v1] |] eqn:R;
      [| discriminate].
    destruct (pmu_read_multi_some _ _ _ _ _ _ _ R) as (bs & E & L & ->).
    exists bs. split; [exact E |]. split; [exact L |].
    repeat match type of H with
           | context [if ?b then _ else _] => destruct b
           | context [match pmu_read_multi ?a ?b ?c ?d ?e with _ => _ end] =>
               destruct (pmu_read_multi a b c d e) as [[? ?] |]
           end; try discriminate; inversion H; reflexivity.
  - intros dev es0 es1 D B E.
    destruct (discovered_engines_absent _ _ _ D)
      as (_ & Pi & Pq & Pa & Pr & Pe).
    now apply (pmu_init_counted k es0 es1).
Qed.

Lemma pmu_read_multi_layout_witness :
  exists vals,
    pmu_read_multi example_os 1 3 8 (repeat 0 10) =
      Some (1000000000, vals) /\
    nth 4 vals 0 = 500000000.
Proof.
  destruct (proj1 (pmu_read_multi_layout example_os 1 3 8 (repeat 0 10))
                  (flat_map (le_split 8)
                     (8 :: 1000000000
                        :: map (fun i => 100000000 * (Z.of_nat i + 1))
                             (seq 0 8))))
    as (vals & E & N & _); [vm_compute; reflexivity | reflexivity |].
  exists vals; split; [exact E |].
  rewrite (N 4%nat) by lia. reflexivity.
Defined.

(** ** C10: sampling leaves absent counters alone *)

Lemma update_sample_step c v : sample_step c (update_sample c v).
Proof.
  unfold sample_step, update_sample.
  destruct (present c) eqn:P; split; auto; try discriminate.
  right; eauto.
Qed.

Lemma sample_step_refl c : sample_step c c.
Proof. split; auto. Qed.

Lemma sample_engines_step v tab :
  Forall2 sample_step (flat_map engine_counters tab)
          (flat_map engine_counters (map (sample_engine v) tab)).
Proof.
  induction tab as [| e tab IH]; simpl; [constructor |].
  repeat (constructor; [apply update_sample_step |]). exact IH.
Qed.

(** C10. A sampling tick that completes leaves every counter whose
    present flag is false exactly as it was; the only change it makes to any
    counter is the shift of [cur] into [prev] together with a fresh [cur],
    and it makes it only to counters with present = true. *)
Theorem pmu_sample_frame k n es es' n' :
  pmu_sample k n es = Some (es', n') ->
  Forall2 sample_step (counters_of es) (counters_of es').
Proof.
  unfold pmu_sample. intros H.
  destruct (pmu_read_multi k n (fd es) _ _) as [[stamp v1] |];
    [| discriminate].
  destruct (negb (num_rapl es =? 0)).
  - destruct (pmu_read_multi k (n + 1) (rapl_fd es) _ _) as [[s2 v2] |];
      [| discriminate].
    destruct (negb (num_imc es =? 0)).
    + destruct (pmu_read_multi k (n + 2) (imc_fd es) _ _) as [[s3 v3] |];
        [| discriminate].
      inversion H; subst; clear H. unfold counters_of; simpl.
      repeat (constructor; [apply update_sample_step |]).
      apply Forall2_app; [apply sample_engines_step |].
      repeat (constructor; [apply update_sample_step |]). constructor.
    + inversion H; subst; clear H. unfold counters_of; simpl.
      repeat (constructor; [apply update_sample_step |]).
      apply Forall2_app; [apply sample_engines_step |].
      repeat (constructor;
              [first [apply update_sample_step | apply sample_step_refl] |]).
      constructor.
  - destruct (negb (num_imc es =? 0)).
    + destruct (pmu_read_multi k (n + 1) (imc_fd es) _ _) as [[s3 v3] |];
        [| discriminate].
      inversion H; subst; clear H. unfold counters_of; simpl.
      repeat (constructor; [apply update_sample_step |]).
      apply Forall2_app; [apply sample_engines_step |].
      repeat (constructor;
              [first [apply sample_step_refl | apply update_sample_step] |]).
      constructor.
    + inversion H; subst; clear H. unfold counters_of; simpl.
      repeat (constructor; [apply update_sample_step |]).
      apply Forall2_app; [apply sample_engines_step |].
      repeat (constructor; [apply sample_step_refl |]). constructor.
Qed.

Lemma pmu_sample_frame_witness :
  Forall2 sample_step (counters_of example_engines_init)
          (counters_of example_engines_sampled).
Proof.
  apply (pmu_sample_frame example_os 0 example_engines_init
                          example_engines_sampled 1).
  vm_compute; reflexivity.
Defined.


(** ** C2: class aggregation *)

Lemma u64_range z : 0 <= u64 z < 2 ^ 64.
Proof. unfold u64; apply Z.mod_pos_bound; lia. Qed.

Lemma fold_pmu_sum (f : engine -> pmu_counter) members acc :
  0 <= cur acc < 2 ^ 64 -> 0 <= prev acc < 2 ^ 64 ->
  fold_left (fun a e => __pmu_sum a (val (f e))) members acc =
    {| cur := u64 (cur acc + sum_of (fun e => cur (val (f e))) members);
       prev := u64 (prev acc + sum_of (fun e => prev (val (f e))) members) |}.
Proof.
  revert acc; induction members as [| e l IH]; simpl; intros acc Hc Hp.
  - rewrite !Z.add_0_r. unfold u64. rewrite !Z.mod_small by lia.
    now destruct acc.
  - rewrite IH by (simpl; apply u64_range). simpl. unfold u64.
    rewrite !Zplus_mod_idemp_l. f_equal; f_equal; lia.
Qed.

Lemma refresh_class_engine_spec ctab tab ce ce' :
  refresh_class_engine ctab tab ce = Some ce' ->
  let n := ec_num_engines (nth (Z.to_nat (class ce)) ctab class0) in
  let total (f : engine -> pmu_counter) :=
    {| cur := u64 (sum_of (fun e => cur (val (f e))) (members_of tab ce)) / n;
       prev := u64 (sum_of (fun e => prev (val (f e))) (members_of tab ce))
               / n |} in
  n <> 0 /\ class ce' = class ce /\
  val (busy ce') = total busy /\ val (wait ce') = total wait /\
  val (sema ce') = total sema.
Proof.
  unfold refresh_class_engine.
  destruct (Z.eqb_spec
              (ec_num_engines (nth (Z.to_nat (class ce)) ctab class0)) 0)
    as [E | E]; [discriminate |].
  intros H; inversion H; subst; clear H. cbv zeta. simpl.
  fold (members_of tab ce).
  rewrite !fold_pmu_sum by (simpl; lia). simpl.
  repeat split; auto.
Qed.

Lemma refresh_class_engines_spec ctab tab ces tab' :
  refresh_class_engines ctab tab ces = Some tab' ->
  Forall2 (fun ce ce' => refresh_class_engine ctab tab ce = Some ce') ces tab'.
Proof.
  revert tab'; induction ces as [| ce ces IH]; simpl; intros tab' H.
  - inversion H; constructor.
  - destruct (refresh_class_engine ctab tab ce) as [ce' |] eqn:E;
      [| discriminate].
    destruct (refresh_class_engines ctab tab ces) as [rest |];
      [| discriminate].
    inversion H; subst. constructor; auto.
Qed.

Lemma Forall2_in_r {A B : Type} (R : A -> B -> Prop) l l' y :
  Forall2 R l l' -> In y l' -> exists x, In x l /\ R x y.
Proof.
  induction 1 as [| a b l l' Hab _ IH]; simpl; [tauto |].
  intros [-> | H]; [exists a; auto |].
  destruct (IH H) as (x & ? & ?); exists x; auto.
Qed.

Lemma Forall2_in_l {A B : Type} (R : A -> B -> Prop) l l' x :
  Forall2 R l l' -> In x l -> exists y, In y l' /\ R x y.
Proof.
  induction 1 as [| a b l l' Hab _ IH]; simpl; [tauto |].
  intros [-> | H]; [exists b; auto |].
  destruct (IH H) as (y & ? & ?); exists y; auto.
Qed.

Lemma count_class_cls tab x : count_class tab x = count_cls (map class tab) x.
Proof.
  unfold count_class, count_cls; f_equal.
  induction tab as [| e tab IH]; simpl; auto.
  destruct (class e =? x); simpl; congruence.
Qed.

Lemma members_length tab ce :
  Z.of_nat (List.length (members_of tab ce)) =
    count_cls (map class tab) (class ce).
Proof. rewrite <- count_class_cls. reflexivity. Qed.

Lemma count_cls_bound cls x :
  0 <= count_cls cls x <= Z.of_nat (List.length cls).
Proof.
  unfold count_cls.
  pose proof (filter_length_le (fun y => y =? x) cls). lia.
Qed.

Lemma count_cls_in cls x : In x cls -> 1 <= count_cls cls x.
Proof.
  unfold count_cls; intros H.
  assert (I : In x (filter (fun y => y =? x) cls)).
  { apply filter_In; split; auto. apply Z.eqb_refl. }
  destruct (filter (fun y => y =? x) cls); simpl in *; [tauto | lia].
Qed.

Lemma qsort_sorted_id {A : Type} (cmp : A -> A -> Z) l :
  Sorted (cmp_le cmp) l -> qsort cmp l = l.
Proof.
  induction 1 as [| x l S IH Hd]; simpl; auto.
  rewrite IH. destruct Hd as [| y l Hxy]; simpl; auto.
  unfold cmp_le in Hxy. destruct (Z.leb_spec (cmp x y) 0); [auto | lia].
Qed.

Lemma class_table_sorted (mk : nat -> engine_class) a n :
  (forall i, ec_class (mk i) = Z.of_nat i) ->
  Sorted (cmp_le class_cmp) (map mk (seq a n)).
Proof.
  intros Hmk; revert a; induction n as [| n IH]; simpl; intros a.
  - constructor.
  - constructor; [apply IH |].
    destruct n; simpl; constructor.
    unfold cmp_le, class_cmp. rewrite !Hmk.
    replace (Z.of_nat a - Z.of_nat (S a)) with (-1) by lia.
    vm_compute; discriminate.
Qed.

Lemma max_class_fold tab m :
  m <= fold_left
         (fun m e => if to_int (class e) >? m then to_int (class e) else m)
         tab m /\
  forall e, In e tab ->
    to_int (class e) <=
      fold_left
        (fun m e => if to_int (class e) >? m then to_int (class e) else m)
        tab m.
Proof.
  revert m; induction tab as [| a tab IH]; simpl; intros m.
  - split; [lia | tauto].
  - destruct (Z.gtb_spec (to_int (class a)) m) as [G | G].
    + destruct (IH (to_int (class a))) as [I1 I2].
      split; [lia |]. intros e [-> | He]; auto.
    + destruct (IH m) as [I1 I2].
      split; [lia |]. intros e [-> | He]; [lia | auto].
Qed.

Lemma to_int_bounds z : - 2 ^ 31 <= to_int z < 2 ^ 31.
Proof.
  unfold to_int, u32. pose proof (Z.mod_pos_bound z (2 ^ 32)).
  destruct (Z.ltb_spec (z mod 2 ^ 32) (2 ^ 31)); lia.
Qed.

Lemma max_class_bound tab : max_class tab < 2 ^ 31.
Proof.
  unfold max_class.
  assert (G : forall l m, m < 2 ^ 31 ->
    fold_left (fun m e => if to_int (class e) >? m then to_int (class e)
                          else m) l m < 2 ^ 31).
  { induction l as [| a l IH]; simpl; intros m Hm; auto.
    apply IH. pose proof (to_int_bounds (class a)).
    destruct (to_int (class a) >? m); lia. }
  apply G; lia.
Qed.

Lemma class_engine_class tab i : class (class_engine tab i) = i.
Proof. unfold class_engine. destruct (find _ tab); reflexivity. Qed.

Lemma init_class_engines_inv es es' c :
  init_class_engines es = Some (es', c) ->
  engine_tab es' = engine_tab es /\
  view_inv (map class (engine_tab es)) c.
Proof.
  unfold init_class_engines, init_engine_classes.
  pose proof (max_class_bound (engine_tab es)) as MB.
  destruct (Z.ltb_spec (max_class (engine_tab es)) 0) as [L | L];
    [discriminate |].
  set (num := u32 (max_class (engine_tab es) + 1)).
  assert (Hnum : num = max_class (engine_tab es) + 1).
  { unfold num, u32. apply Z.mod_small. lia. }
  set (mk := fun i : nat =>
               {| ec_class := Z.of_nat i;
                  ec_name := class_display_name (Z.of_nat i);
                  ec_num_engines :=
                    u32 (count_class (engine_tab es) (Z.of_nat i)) |}).
  rewrite (qsort_sorted_id class_cmp (map mk (seq 0 (Z.to_nat num))))
    by (apply class_table_sorted; reflexivity).
  cbn [num_classes class_tab engine_tab].
  intros H; inversion H; subst es' c; clear H.
  cbn [engine_tab class_tab]. split; [reflexivity |].
  assert (Hnth : forall i, (i < Z.to_nat num)%nat ->
            nth i (map mk (seq 0 (Z.to_nat num))) class0 = mk i).
  { intros i Hi.
    rewrite (nth_indep _ class0 (mk 0%nat)) by (now rewrite length_map, length_seq).
    rewrite map_nth, seq_nth; auto. }
  split.
  - intros ce Hce. apply in_map_iff in Hce.
    destruct Hce as (i & <- & Hi). apply filter_In in Hi.
    destruct Hi as [Hi _]. apply in_seq in Hi.
    rewrite class_engine_class, Nat2Z.id, Hnth by lia.
    unfold mk; simpl. now rewrite count_class_cls.
  - intros x Hx Hr Hlen. apply in_map_iff in Hx.
    destruct Hx as (e & <- & He).
    apply in_map_iff. exists (class_engine (engine_tab es) (class e)).
    split; [apply class_engine_class |].
    apply in_map_iff. exists (Z.to_nat (class e)).
    split; [now rewrite Z2Nat.id by lia |].
    assert (Hle : class e <= max_class (engine_tab es)).
    { destruct (max_class_fold (engine_tab es) (-1)) as [_ M].
      specialize (M e He). rewrite to_int_small in M by lia. exact M. }
    apply filter_In; split; [apply in_seq; lia |].
    rewrite Hnth by lia. unfold mk; simpl. rewrite Z2Nat.id by lia.
    rewrite count_class_cls.
    pose proof (count_cls_bound (map class (engine_tab es)) (class e)) as B.
    pose proof (count_cls_in (map class (engine_tab es)) (class e)
                  (in_map class _ _ He)) as C.
    rewrite length_map in *.
    unfold u32. rewrite Z.mod_small by lia.
    destruct (Z.eqb_spec (count_cls (map class (engine_tab es)) (class e)) 0);
      [lia | reflexivity].
Qed.

Lemma refresh_preserves_inv cls c tab tab' :
  view_inv cls c ->
  refresh_class_engines (class_tab c) tab (engine_tab c) = Some tab' ->
  view_inv cls (set_engine_tab c tab').
Proof.
  intros [I1 I2] R. apply refresh_class_engines_spec in R.
  split; cbn [engine_tab class_tab set_engine_tab].
  - intros ce' Hce'.
    destruct (Forall2_in_r _ _ _ _ R Hce') as (ce & Hce & E).
    apply refresh_class_engine_spec in E. destruct E as (_ & -> & _).
    now apply I1.
  - intros x Hx Hr Hl. specialize (I2 x Hx Hr Hl).
    apply in_map_iff in I2. destruct I2 as (ce & <- & Hce).
    destruct (Forall2_in_l _ _ _ _ R Hce) as (ce' & Hce' & E).
    apply refresh_class_engine_spec in E. destruct E as (_ & <- & _).
    now apply in_map.
Qed.

(** One call of [update_class_engines], from a static variable that
    satisfies the invariant or is still unset. *)
Lemma update_class_engines_step cls static es es' c :
  match static with Some c0 => view_inv cls c0 | None => True end ->
  map class (engine_tab es) = cls ->
  update_class_engines static es = Some (es', c) ->
  engine_tab es' = engine_tab es /\ view_inv cls c /\
  exists c0,
    view_inv cls c0 /\ class_tab c = class_tab c0 /\
    Forall2 (fun ce ce' =>
               refresh_class_engine (class_tab c0) (engine_tab es) ce
                 = Some ce')
            (engine_tab c0) (engine_tab c).
Proof.
  intros HI Hcls. unfold update_class_engines.
  destruct static as [c0 |].
  - destruct (refresh_class_engines _ _ _) as [tab' |] eqn:R; [| discriminate].
    intros H; inversion H; subst es' c; clear H.
    split; [reflexivity |]. split; [eapply refresh_preserves_inv; eauto |].
    exists c0. split; [exact HI |]. split; [reflexivity |].
    cbn [engine_tab set_engine_tab]. now apply refresh_class_engines_spec.
  - destruct (init_class_engines es) as [[es1 c0] |] eqn:E; [| discriminate].
    destruct (refresh_class_engines _ _ _) as [tab' |] eqn:R; [| discriminate].
    intros H; inversion H; subst es' c; clear H.
    destruct (init_class_engines_inv _ _ _ E) as [T I0]. rewrite Hcls in I0.
    split; [exact T |]. split; [eapply refresh_preserves_inv; eauto |].
    exists c0. split; [exact I0 |]. split; [reflexivity |].
    cbn [engine_tab set_engine_tab].
    rewrite <- T. now apply refresh_class_engines_spec.
Qed.

Lemma view_state_inv cls static :
  view_state cls static ->
  match static with Some c0 => view_inv cls c0 | None => True end.
Proof.
  induction 1 as [| static0 es0 es0' c0 _ IH Hcls U]; auto.
  now destruct (update_class_engines_step _ _ _ _ _ IH Hcls U) as (_ & I & _).
Qed.

Lemma sum_of_delta (f : engine -> pmu_counter) l :
  sum_of (fun e => delta (f e)) l =
    sum_of (fun e => cur (val (f e))) l - sum_of (fun e => prev (val (f e))) l.
Proof. induction l as [| e l IH]; simpl; unfold delta in *; lia. Qed.

Lemma sum_of_monotone (f : engine -> pmu_counter) l :
  Forall (fun e => 0 <= prev (val (f e)) <= cur (val (f e))) l ->
  0 <= sum_of (fun e => prev (val (f e))) l
    <= sum_of (fun e => cur (val (f e))) l.
Proof. induction 1; simpl; lia. Qed.

Lemma aggregated_near_mean f ce members :
  (1 <= List.length members)%nat ->
  aggregated f ce members -> near_mean f ce members.
Proof.
  unfold aggregated, near_mean. intros Hn A Hm Hs. cbv zeta.
  pose proof (sum_of_monotone f members Hm) as [P0 PC].
  rewrite sum_of_delta.
  assert (D : delta (f ce) =
              sum_of (fun e => cur (val (f e))) members
                / Z.of_nat (List.length members)
              - sum_of (fun e => prev (val (f e))) members
                  / Z.of_nat (List.length members)).
  { unfold delta. rewrite A; simpl. unfold u64.
    rewrite !Z.mod_small by lia. reflexivity. }
  rewrite D. clear D A.
  set (a := sum_of (fun e => cur (val (f e))) members) in *.
  set (b := sum_of (fun e => prev (val (f e))) members) in *.
  set (n := Z.of_nat (List.length members)).
  assert (Hn0 : 0 < n) by (unfold n; lia).
  pose proof (Z.div_mod a n ltac:(lia)).
  pose proof (Z.div_mod b n ltac:(lia)).
  pose proof (Z.div_mod (a - b) n ltac:(lia)).
  pose proof (Z.mod_pos_bound a n Hn0).
  pose proof (Z.mod_pos_bound b n Hn0).
  pose proof (Z.mod_pos_bound (a - b) n Hn0).
  split; [split; nia |]. intros Hz. nia.
Qed.


(** C2 (as stated) fails: with two render engines whose busy counters went
    from 1 to 2 and from 0 to 0, the class engine gets cur = 2 / 2 = 1 and
    prev = 1 / 2 = 0, a delta of 1, while the mean of the deltas is 1 / 2. *)
Lemma class_delta_is_not_mean_of_deltas :
  exists es' ce,
    update_class_engines None example_pair = Some (es', example_pair_classes)
    /\ In ce (engine_tab example_pair_classes)
    /\ ~ mean_of_deltas busy ce (members_of (engine_tab example_pair) ce).
Proof.
  eexists; eexists. split; [vm_compute; reflexivity |].
  split; [left; reflexivity |].
  vm_compute. intros [H | H]; discriminate.
Qed.

(** C2 (amended). After any refresh of the class view, every class of a
    real engine has its class engine, and for every class engine with real
    engines e1..en of its class (n >= 1) the busy counter holds
    cur = (sum of the cur_i mod 2^64) / n and
    prev = (sum of the prev_i mod 2^64) / n in integer division; when the
    counters are monotone and the sum of the cur_i fits in 64 bits,
    cur - prev is the integer mean of the deltas or one more, and it is the
    integer mean when n divides the sum of the prev_i.  The same holds for
    the wait and sema counters. *)
Theorem class_engines_aggregate cls static es es' c :
  view_state cls static ->
  map class (engine_tab es) = cls ->
  Z.of_nat (List.length (engine_tab es)) < 2 ^ 32 ->
  update_class_engines static es = Some (es', c) ->
  (forall e, In e (engine_tab es) -> 0 <= class e < 2 ^ 31 ->
             exists ce, In ce (engine_tab c) /\ class ce = class e) /\
  (forall ce, In ce (engine_tab c) ->
     let members := members_of (engine_tab es) ce in
     (1 <= List.length members)%nat /\
     (aggregated busy ce members /\ near_mean busy ce members) /\
     (aggregated wait ce members /\ near_mean wait ce members) /\
     (aggregated sema ce members /\ near_mean sema ce members)).
Proof.
  intros V Hcls Hlen U.
  pose proof (view_state_inv _ _ V) as HI.
  destruct (update_class_engines_step _ _ _ _ _ HI Hcls U)
    as (_ & [_ I2] & c0 & [I1 _] & _ & F).
  split.
  - intros e He Hr.
    assert (Hx : In (class e) cls) by (rewrite <- Hcls; now apply in_map).
    assert (Hl : Z.of_nat (List.length cls) < 2 ^ 32)
      by (now rewrite <- Hcls, length_map).
    specialize (I2 _ Hx Hr Hl). apply in_map_iff in I2.
    destruct I2 as (ce & ? & ?); exists ce; auto.
  - intros ce' Hce'. cbv zeta.
    destruct (Forall2_in_r _ _ _ _ F Hce') as (ce & Hce & R).
    apply refresh_class_engine_spec in R. cbv zeta in R.
    destruct R as (Hn & Hc & Hb & Hw & Hs).
    rewrite (I1 ce Hce) in *.
    assert (M : members_of (engine_tab es) ce' = members_of (engine_tab es) ce).
    { unfold members_of. now rewrite Hc. }
    rewrite M.
    pose proof (members_length (engine_tab es) ce) as L. rewrite Hcls in L.
    pose proof (count_cls_bound cls (class ce)) as B.
    rewrite <- Hcls, length_map, Hcls in B.
    assert (Hu : u32 (count_cls cls (class ce)) =
                 Z.of_nat (List.length (members_of (engine_tab es) ce))).
    { unfold u32. rewrite Z.mod_small by lia. now rewrite L. }
    rewrite Hu in *.
    assert (H1 : (1 <= List.length (members_of (engine_tab es) ce))%nat)
      by lia.
    assert (Ab : aggregated busy ce' (members_of (engine_tab es) ce))
      by exact Hb.
    assert (Aw : aggregated wait ce' (members_of (engine_tab es) ce))
      by exact Hw.
    assert (As : aggregated sema ce' (members_of (engine_tab es) ce))
      by exact Hs.
    split; [exact H1 |].
    split; [| split]; (split; [| apply aggregated_near_mean]); assumption.
Qed.

Lemma class_engines_aggregate_witness :
  let ce := nth 0 (engine_tab example_pair_classes) engine0 in
  let members := members_of (engine_tab example_pair) ce in
  (1 <= List.length members)%nat /\
  (aggregated busy ce members /\ near_mean busy ce members) /\
  (aggregated wait ce members /\ near_mean wait ce members) /\
  (aggregated sema ce members /\ near_mean sema ce members).
Proof.
  refine (proj2 (class_engines_aggregate [0; 0] None example_pair
                   (match init_class_engines example_pair with
                    | Some (es, _) => es
                    | None => engines0
                    end)
                   example_pair_classes _ _ _ _) _ _).
  - constructor.
  - reflexivity.
  - simpl; lia.
  - vm_compute; reflexivity.
  - left; reflexivity.
Defined.


(** ** The output of one pass in Prometheus mode *)

Lemma add_out_nil g : add_out g [] = g.
Proof. destruct g; unfold add_out; simpl. now rewrite app_nil_r. Qed.

Lemma add_out_app g a b : add_out (add_out g a) b = add_out g (a ++ b).
Proof. unfold add_out; simpl. now rewrite app_assoc. Qed.

Lemma set_items_same grp : set_items grp (g_items grp) = grp.
Proof. now destruct grp. Qed.

Lemma prometheus_add_member_out k grp i item h g :
  exists r,
    prometheus_add_member k grp i item h g =
      Some ((r, item), add_out g (prom_item_events k grp item)).
Proof.
  unfold prometheus_add_member, prom_item_events.
  destruct (it_pmu item) as [p |];
    [| exists 0; unfold ret; now rewrite add_out_nil].
  destruct (negb (present p));
    [exists 0; unfold ret; now rewrite add_out_nil |].
  eexists. unfold bind, emit, ret.
  destruct (it_unit item); simpl; rewrite ?add_out_app; reflexivity.
Qed.

Lemma prometheus_add_members_out k grp items : forall i h c g,
  exists c',
    add_members (prometheus_add_member k) grp i items h c g =
      Some ((c', items),
            add_out g (flat_map (prom_item_events k grp) items)).
Proof.
  induction items as [| item items IH]; intros i h c g; simpl.
  - exists c. unfold ret. now rewrite add_out_nil.
  - destruct (prometheus_add_member_out k grp i item h g) as (r & E).
    unfold bind at 1. rewrite E.
    destruct (IH (S i) h (u32 (c + r))
                 (add_out g (prom_item_events k grp item))) as (c' & E').
    unfold bind at 1. rewrite E'. exists c'.
    unfold ret. now rewrite add_out_app.
Qed.

Lemma prometheus_print_group_out k grp h g :
  exists b,
    print_group (prometheus_pops k) grp h g =
      Some ((b, grp), add_out g (prom_group_events k grp)).
Proof.
  cbn [print_group prometheus_pops].
  unfold print_group_with, prom_group_events.
  destruct (present_in_group grp =? 0).
  - exists false. unfold ret. now rewrite add_out_nil.
  - unfold term_print_group_with.
    destruct (prometheus_add_members_out k grp (g_items grp) 0 h 0 g)
      as (c' & E).
    unfold bind, ret. rewrite E. eexists. now rewrite set_items_same.
Qed.

Lemma prometheus_print_groups_data_out k groups : forall g,
  print_groups_data (prometheus_pops k) groups g =
    Some (groups, add_out g (flat_map (prom_group_events k) groups)).
Proof.
  induction groups as [| grp groups IH]; intros g;
    cbn [print_groups_data flat_map].
  - unfold ret. now rewrite add_out_nil.
  - destruct (prometheus_print_group_out k grp 0 g) as (b & E).
    unfold bind at 1. rewrite E.
    unfold bind at 1. rewrite IH. unfold ret. now rewrite add_out_app.
Qed.

Lemma prometheus_print_groups_out k groups g :
  output_mode g = PROMETHEUS ->
  print_groups k groups g =
    Some ((true, groups), add_out g (flat_map (prom_group_events k) groups)).
Proof.
  intros Hm. unfold print_groups. unfold bind at 1, get. rewrite Hm.
  cbn [mode_eqb andb pops_of]. unfold bind at 1, ret at 1.
  unfold bind at 1. rewrite prometheus_print_groups_data_out. reflexivity.
Qed.

Lemma prometheus_print_header_out k card codename es t lines w h g :
  output_mode g = PROMETHEUS ->
  print_header k card codename es t lines w h g =
    Some ((lines, true),
          add_out g (flat_map (prom_group_events k)
                       [freq_group es t; irq_group es t; rc6_group es t;
                        power_group es t])).
Proof.
  intros Hm. unfold print_header. unfold bind at 1, get. rewrite Hm.
  cbn [mode_eqb negb tl pops_of open_struct prometheus_pops].
  unfold bind at 1, ret at 1.
  unfold bind at 1. rewrite prometheus_print_groups_out by exact Hm.
  reflexivity.
Qed.

Lemma prometheus_print_imc_out k es t lines w h g :
  output_mode g = PROMETHEUS ->
  print_imc k es t lines w h g =
    Some (lines,
          add_out g (flat_map (prom_group_events k)
                       (if num_imc es =? 0 then [] else [imc_group es t]))).
Proof.
  intros Hm. unfold print_imc.
  destruct (num_imc es =? 0).
  - unfold ret. simpl. now rewrite add_out_nil.
  - unfold bind at 1, get.
    unfold bind at 1. rewrite prometheus_print_groups_out by exact Hm.
    rewrite Hm. reflexivity.
Qed.

Lemma prometheus_engines_header_out k tab lines w h g :
  output_mode g = PROMETHEUS ->
  print_engines_header_loop k tab lines w h g = Some (lines, g).
Proof.
  intros Hm. induction tab as [| e tab IH]; simpl; auto.
  destruct (negb (lines <? h)); auto.
  destruct (num_counters e =? 0); auto.
  unfold bind at 1, get. rewrite Hm. reflexivity.
Qed.

Lemma prometheus_print_engine_out k e t lines w h g :
  output_mode g = PROMETHEUS ->
  print_engine k e t lines w h g =
    Some (lines,
          add_out g (flat_map (prom_group_events k)
                       (if negb (num_counters e =? 0)
                        then [engine_group e t] else []))).
Proof.
  intros Hm. unfold print_engine.
  destruct (num_counters e =? 0); simpl negb; cbv iota.
  - unfold ret. simpl. now rewrite add_out_nil.
  - unfold bind at 1, get.
    unfold bind at 1. rewrite prometheus_print_groups_out by exact Hm.
    rewrite Hm. reflexivity.
Qed.

Lemma prometheus_engine_rows_out k tab t lines w h : forall g,
  output_mode g = PROMETHEUS -> lines < h ->
  print_engine_rows k tab t lines w h g =
    Some (lines,
          add_out g
            (flat_map (prom_group_events k)
               (map (fun e => engine_group e t)
                    (filter (fun e => negb (num_counters e =? 0)) tab)))).
Proof.
  induction tab as [| e tab IH]; intros g Hm Hl;
    cbn [print_engine_rows filter].
  - unfold ret. simpl. now rewrite add_out_nil.
  - destruct (Z.ltb_spec lines h); [| lia].
    change (negb true) with false; cbv iota beta.
    unfold bind. rewrite prometheus_print_engine_out by exact Hm.
    rewrite IH by auto. rewrite add_out_app.
    destruct (negb (num_counters e =? 0)); simpl; rewrite ?app_nil_r;
      reflexivity.
Qed.

Lemma prometheus_print_engines_out k es t lines w h g :
  output_mode g = PROMETHEUS -> class_view g = false -> lines < h ->
  print_engines k es t lines w h g =
    Some ((lines, es),
          add_out g
            (flat_map (prom_group_events k)
               (map (fun e => engine_group e t)
                    (filter (fun e => negb (num_counters e =? 0))
                            (engine_tab es))))).
Proof.
  intros Hm Hv Hl. unfold print_engines.
  unfold bind at 1, get. rewrite Hv. unfold bind at 1, ret at 1.
  unfold print_engines_header. unfold bind at 1.
  rewrite prometheus_engines_header_out by exact Hm.
  unfold bind at 1. rewrite prometheus_engine_rows_out by auto.
  unfold print_engines_footer. unfold bind, get.
  cbn [output_mode add_out]. rewrite Hm. reflexivity.
Qed.

(** One pass of the loop [while (!consumed)] prints one snapshot. *)
Lemma prometheus_print_passes_out fuel k card codename es t lines w h g :
  output_mode g = PROMETHEUS -> class_view g = false -> lines < h ->
  print_passes (S fuel) k card codename es t lines w h g =
    Some (Some es, add_out g (prom_snapshot k es t)).
Proof.
  intros Hm Hv Hl. cbn [print_passes].
  unfold bind at 1. rewrite prometheus_print_header_out by exact Hm.
  unfold bind at 1. rewrite prometheus_print_imc_out by exact Hm.
  unfold bind at 1. rewrite prometheus_print_engines_out by auto.
  unfold ret. rewrite !add_out_app. unfold prom_snapshot, sample_groups.
  rewrite !flat_map_app. rewrite app_assoc. reflexivity.
Qed.


(** ** C3: the names of the Prometheus metrics *)







(** Outside the tables of the program the item key is not the key of the
    specification: the second loop of [prometheus_add_member] only
    lower-cases, and only as far as the parent key reaches. *)
Example item_key_of_other_names :
  item_key_of (parent_key_of "rc6") "Read-BW" = "read-BW"%string /\
  spec_key "Read-BW" = "read_bw"%string.
Proof. split; reflexivity. Qed.

(** ** C6: Prometheus mode is single-shot *)

(** Runs the monadic operations and the accesses to the file-scope
    variables that have become explicit. *)
Ltac run_globals :=
  cbv beta iota zeta delta
    [bind do_sample get put emit ret abort observe_stop when terminal_size
     set_view globals0 set_run set_stdout add_out stop_top output_mode
     observed reads out class_view stdout_level stdout_lines mode_eqb
     negb orb andb fst snd].

(** C6. In Prometheus mode, once the engines are discovered, the counters
    initialised and the two samples readable, [main] leaves the loop in its
    first iteration and returns 0: when no SIGINT arrives it sleeps for the
    period, takes one sample, prints one snapshot and the closing newline;
    when SIGINT arrives it stops at one of the three points where
    [stop_top] is looked at, so that in no case a second sample or a
    second snapshot follows. *)
Theorem prometheus_single_shot fuel k period_us dev card codename
  es0 es1 es2 es3 n2 n3 :
  discover_engines k dev = Some es0 ->
  pmu_init k es0 = (0, es1) ->
  pmu_sample k 0 es1 = Some (es2, n2) ->
  pmu_sample k n2 es2 = Some (es3, n3) ->
  let snapshot := prom_snapshot k es3 (sample_period es3) in
  (exists stage,
      main (S fuel) k PROMETHEUS period_us dev card codename =
        Exited 0 (prometheus_trace stage period_us snapshot)) /\
  (os_sigint k 0 = false -> os_sigint k 1 = false -> os_sigint k 2 = false ->
   main (S fuel) k PROMETHEUS period_us dev card codename =
     Exited 0 ([Sampled; Usleep period_us; Sampled] ++ snapshot ++ [PromEnd])).
Proof.
  intros D I S1 S2 snapshot.
  assert (G : forall stage,
    (stage = 0%nat /\ os_sigint k 0 = true) \/
    (stage = 1%nat /\ os_sigint k 0 = false /\ os_sigint k 1 = true) \/
    (stage = 2%nat /\ os_sigint k 0 = false /\ os_sigint k 1 = false /\
     os_sigint k 2 = true) \/
    (stage = 3%nat /\ os_sigint k 0 = false /\ os_sigint k 1 = false /\
     os_sigint k 2 = false) ->
    main (S fuel) k PROMETHEUS period_us dev card codename =
      Exited 0 (prometheus_trace stage period_us snapshot)).
  { intros stage Hs. unfold main. rewrite D, I.
    cbn [main_loop Z.eqb negb]. run_globals. rewrite S1. run_globals.
    destruct Hs as [(-> & H0) | [(-> & H0 & H1) | [(-> & H0 & H1 & H2)
                                                 | (-> & H0 & H1 & H2)]]];
      rewrite H0; run_globals.
    - reflexivity.
    - rewrite S2; run_globals; rewrite H1; run_globals. reflexivity.
    - rewrite S2; run_globals; rewrite H1; run_globals.
      rewrite prometheus_print_passes_out
        by (try reflexivity; vm_compute; reflexivity).
      run_globals; rewrite H2; run_globals.
      unfold prometheus_trace. simpl. now rewrite app_nil_r.
    - rewrite S2; run_globals; rewrite H1; run_globals.
      rewrite prometheus_print_passes_out
        by (try reflexivity; vm_compute; reflexivity).
      run_globals; rewrite H2; run_globals.
      unfold prometheus_trace. simpl. reflexivity. }
  split.
  - destruct (os_sigint k 0) eqn:H0; [exists 0%nat; apply G; tauto |].
    destruct (os_sigint k 1) eqn:H1; [exists 1%nat; apply G; tauto |].
    destruct (os_sigint k 2) eqn:H2; [exists 2%nat; apply G; tauto |].
    exists 3%nat; apply G; tauto.
  - intros H0 H1 H2. rewrite (G 3%nat) by tauto. reflexivity.
Qed.


(** ** The output of one pass in plain-text mode *)

Lemma stdout_add_member_out grp i item h g :
  exists c,
    stdout_add_member grp i item h g =
      Some ((c, item), add_out g (stdout_item_events grp i item h)) /\
    (header_mode h -> c = 0).
Proof.
  unfold stdout_add_member, stdout_item_events.
  destruct (it_pmu item) as [p |];
    [| exists 0; unfold ret; now rewrite add_out_nil].
  destruct (negb (present p));
    [exists 0; unfold ret; now rewrite add_out_nil |].
  destruct (Z.eqb_spec h 1) as [H1 | H1].
  { destruct (negb (i =? 0)%nat);
      [exists 0; unfold ret; now rewrite add_out_nil |].
    exists 0; split; auto. }
  destruct (Z.eqb_spec h 2) as [H2 | H2].
  { exists 0; split; auto. }
  eexists; split; [reflexivity |]. intros [? | ?]; contradiction.
Qed.

Lemma stdout_add_members_out grp items : forall i h c g,
  exists c',
    add_members stdout_add_member grp i items h c g =
      Some ((c', items), add_out g (stdout_items_events grp i items h)) /\
    (header_mode h -> c' = u32 c \/ (items = [] /\ c' = c)).
Proof.
  induction items as [| item items IH]; intros i h c g;
    cbn [add_members stdout_items_events].
  - exists c. unfold ret. rewrite add_out_nil. auto.
  - destruct (stdout_add_member_out grp i item h g) as (r & E & Hr).
    unfold bind at 1. rewrite E.
    destruct (IH (S i) h (u32 (c + r))
                 (add_out g (stdout_item_events grp i item h)))
      as (c' & E' & Hc').
    unfold bind at 1. rewrite E'. exists c'.
    unfold ret. rewrite add_out_app. split; [reflexivity |].
    intros Hh. left. rewrite (Hr Hh), Z.add_0_r in Hc'.
    destruct (Hc' Hh) as [-> | [_ ->]]; auto.
    unfold u32. now rewrite Z.mod_mod.
Qed.

Lemma set_stdout_back g a lv ln evs :
  stdout_level g = lv -> stdout_lines g = ln ->
  set_stdout (add_out (set_stdout g a ln) evs) lv ln = add_out g evs.
Proof. destruct g; simpl; intros; subst; reflexivity. Qed.

Lemma stdout_print_group_out grp h g :
  1 <= stdout_level g < 2 ^ 32 - 1 ->
  exists b,
    print_group stdout_pops grp h g =
      Some ((b, grp), add_out g (stdout_group_events h grp)) /\
    (header_mode h -> b = false).
Proof.
  intros Hl. cbn [print_group stdout_pops].
  unfold print_group_with, stdout_group_events.
  destruct (present_in_group grp =? 0).
  - exists false. unfold ret. rewrite add_out_nil. auto.
  - unfold term_print_group_with.
    unfold bind at 1, stdout_open_struct, bind at 1, get at 1.
    unfold bind at 1, put at 1.
    assert (U : u32 (stdout_level g + 1) = stdout_level g + 1)
      by (unfold u32; apply Z.mod_small; lia).
    rewrite U.
    destruct (Z.ltb_spec 0 (stdout_level g + 1)); [| lia].
    unfold assert, ret at 1.
    destruct (stdout_add_members_out grp (g_items grp) 0 h 0
                (set_stdout g (stdout_level g + 1) (stdout_lines g)))
      as (c' & E & Hc').
    unfold bind at 1. rewrite E.
    unfold bind at 1, stdout_close_struct, bind at 1, get at 1.
    cbn [stdout_level stdout_lines set_stdout add_out].
    destruct (Z.ltb_spec 0 (stdout_level g + 1)); [| lia].
    unfold assert, bind at 1, ret at 1.
    replace (stdout_level g + 1 - 1) with (stdout_level g) by lia.
    destruct (Z.eqb_spec (stdout_level g) 0); [lia |].
    unfold put, ret. rewrite set_items_same.
    rewrite set_stdout_back by reflexivity.
    eexists; split; [reflexivity |].
    intros Hh. destruct (Hc' Hh) as [-> | [_ ->]]; reflexivity.
Qed.

Lemma stdout_print_groups_headers_out h groups : forall pd g,
  1 <= stdout_level g < 2 ^ 32 - 1 -> header_mode h ->
  print_groups_headers stdout_pops groups h pd g =
    Some ((match groups with [] => pd | _ => false end, groups),
          add_out g (flat_map (stdout_group_events h) groups)).
Proof.
  induction groups as [| grp groups IH]; intros pd g Hl Hh;
    cbn [print_groups_headers flat_map].
  - unfold ret. now rewrite add_out_nil.
  - destruct (stdout_print_group_out grp h g Hl) as (b & E & Hb).
    unfold bind at 1. rewrite E. rewrite (Hb Hh).
    unfold bind at 1. rewrite IH by auto. unfold ret.
    rewrite add_out_app. destruct groups; reflexivity.
Qed.

Lemma stdout_print_groups_data_out groups : forall g,
  1 <= stdout_level g < 2 ^ 32 - 1 ->
  print_groups_data stdout_pops groups g =
    Some (groups, add_out g (flat_map (stdout_group_events 0) groups)).
Proof.
  induction groups as [| grp groups IH]; intros g Hl;
    cbn [print_groups_data flat_map].
  - unfold ret. now rewrite add_out_nil.
  - destruct (stdout_print_group_out grp 0 g Hl) as (b & E & _).
    unfold bind at 1. rewrite E.
    unfold bind at 1. rewrite IH by auto. unfold ret.
    now rewrite add_out_app.
Qed.

Lemma stdout_print_groups_out k groups g :
  output_mode g = STDOUT -> 1 <= stdout_level g < 2 ^ 32 - 1 ->
  groups <> [] ->
  print_groups k groups g =
    Some ((pass_mode (stdout_lines g) =? 0, groups),
          add_out g (flat_map (stdout_group_events
                                 (pass_mode (stdout_lines g))) groups)).
Proof.
  intros Hm Hl Hg. unfold print_groups. unfold bind at 1, get. rewrite Hm.
  cbn [mode_eqb andb pops_of]. unfold STDOUT_HEADER_REPEAT, pass_mode.
  pose proof (Z.mod_pos_bound (stdout_lines g) 20 ltac:(lia)) as B.
  assert (U : u32 (stdout_lines g mod 20 + 1) = stdout_lines g mod 20 + 1)
    by (unfold u32; apply Z.mod_small; lia).
  rewrite U.
  destruct (Z.eqb_spec (stdout_lines g mod 20) 0) as [E0 | E0].
  - rewrite E0. cbn [Z.add Z.eqb Pos.eqb orb].
    unfold bind at 1.
    rewrite stdout_print_groups_headers_out by (auto; left; reflexivity).
    destruct groups; [contradiction |]. reflexivity.
  - destruct (Z.eqb_spec (stdout_lines g mod 20) 1) as [E1 | E1].
    + rewrite E1. cbn [Z.add Z.eqb Pos.eqb Pos.add orb].
      unfold bind at 1.
      rewrite stdout_print_groups_headers_out by (auto; right; reflexivity).
      destruct groups; [contradiction |]. reflexivity.
    + destruct (Z.eqb_spec (stdout_lines g mod 20 + 1) 1); [lia |].
      destruct (Z.eqb_spec (stdout_lines g mod 20 + 1) 2); [lia |].
      cbn [orb]. unfold bind at 1, ret at 1.
      unfold bind at 1. rewrite stdout_print_groups_data_out by auto.
      reflexivity.
Qed.


Lemma stdout_print_header_out k card codename es t lines w h g :
  output_mode g = STDOUT -> stdout_level g = 0 ->
  print_header k card codename es t lines w h g =
    Some ((lines, pass_mode (stdout_lines g) =? 0),
          add_out (set_stdout g 1 (stdout_lines g))
            (flat_map (stdout_group_events (pass_mode (stdout_lines g)))
               [freq_group es t; irq_group es t; rc6_group es t;
                power_group es t])).
Proof.
  intros Hm Hl. unfold print_header. unfold bind at 1, get. rewrite Hm.
  cbn [mode_eqb negb tl pops_of open_struct stdout_pops].
  unfold bind at 1, stdout_open_struct, bind at 1, get at 1.
  unfold bind at 1, put at 1. rewrite Hl.
  change (u32 (0 + 1)) with 1. cbn [Z.ltb Z.compare assert].
  unfold ret at 1.
  unfold bind at 1.
  rewrite stdout_print_groups_out
    by (first [cbn; exact Hm | discriminate | cbn; lia]).
  reflexivity.
Qed.

Lemma stdout_print_imc_out k es t lines w h g :
  output_mode g = STDOUT -> 1 <= stdout_level g < 2 ^ 32 - 1 ->
  print_imc k es t lines w h g =
    Some (lines,
          add_out g (flat_map (stdout_group_events
                                 (pass_mode (stdout_lines g)))
                       (if num_imc es =? 0 then [] else [imc_group es t]))).
Proof.
  intros Hm Hl. unfold print_imc.
  destruct (num_imc es =? 0).
  - unfold ret. simpl. now rewrite add_out_nil.
  - unfold bind at 1, get.
    unfold bind at 1.
    rewrite stdout_print_groups_out by (auto; discriminate).
    rewrite Hm. reflexivity.
Qed.

Lemma stdout_engines_header_out k tab lines w h g :
  output_mode g = STDOUT -> 1 <= stdout_level g < 2 ^ 32 - 1 ->
  lines < h ->
  existsb (fun e => negb (num_counters e =? 0)) tab = true ->
  print_engines_header_loop k tab lines w h g =
    Some (lines, set_stdout g (stdout_level g + 1) (stdout_lines g)).
Proof.
  intros Hm Hl Hh. induction tab as [| e tab IH]; cbn [existsb];
    [discriminate |].
  intros He. cbn [print_engines_header_loop].
  destruct (Z.ltb_spec lines h); [| lia]. cbn [negb].
  destruct (num_counters e =? 0); cbn [negb orb] in *; [now apply IH |].
  unfold bind at 1, get. rewrite Hm.
  cbn [pops_of open_struct stdout_pops mode_eqb].
  unfold bind at 1, stdout_open_struct, bind at 1, get at 1.
  unfold bind at 1, put at 1.
  assert (U : u32 (stdout_level g + 1) = stdout_level g + 1)
    by (unfold u32; apply Z.mod_small; lia).
  rewrite U. destruct (Z.ltb_spec 0 (stdout_level g + 1)); [| lia].
  reflexivity.
Qed.

Lemma stdout_print_engine_out k e t lines w h g :
  output_mode g = STDOUT -> 1 <= stdout_level g < 2 ^ 32 - 1 ->
  print_engine k e t lines w h g =
    Some (lines,
          add_out g (flat_map (stdout_group_events
                                 (pass_mode (stdout_lines g)))
                       (if negb (num_counters e =? 0)
                        then [engine_group e t] else []))).
Proof.
  intros Hm Hl. unfold print_engine.
  destruct (num_counters e =? 0); cbn [negb].
  - unfold ret. simpl. now rewrite add_out_nil.
  - unfold bind at 1, get.
    unfold bind at 1.
    rewrite stdout_print_groups_out by (auto; discriminate).
    rewrite Hm. reflexivity.
Qed.

Lemma stdout_engine_rows_out k tab t lines w h : forall g,
  output_mode g = STDOUT -> 1 <= stdout_level g < 2 ^ 32 - 1 ->
  lines < h ->
  print_engine_rows k tab t lines w h g =
    Some (lines,
          add_out g
            (flat_map (stdout_group_events (pass_mode (stdout_lines g)))
               (map (fun e => engine_group e t)
                    (filter (fun e => negb (num_counters e =? 0)) tab)))).
Proof.
  induction tab as [| e tab IH]; intros g Hm Hlv Hl;
    cbn [print_engine_rows filter].
  - unfold ret. simpl. now rewrite add_out_nil.
  - destruct (Z.ltb_spec lines h); [| lia].
    change (negb true) with false; cbv iota beta.
    unfold bind. rewrite stdout_print_engine_out by auto.
    rewrite IH by auto. rewrite add_out_app.
    cbn [stdout_lines add_out].
    destruct (negb (num_counters e =? 0)); simpl; rewrite ?app_nil_r;
      reflexivity.
Qed.

Lemma set_stdout_add_out g evs lv ln :
  set_stdout (add_out g evs) lv ln = add_out (set_stdout g lv ln) evs.
Proof. reflexivity. Qed.

Lemma set_stdout_twice g a b lv ln :
  set_stdout (set_stdout g a b) lv ln = set_stdout g lv ln.
Proof. reflexivity. Qed.

Lemma stdout_close_inner g :
  2 <= stdout_level g ->
  stdout_close_struct g =
    Some (tt, set_stdout g (stdout_level g - 1) (stdout_lines g)).
Proof.
  intros H. unfold stdout_close_struct, bind, get, assert.
  destruct (Z.ltb_spec 0 (stdout_level g)); [| lia]. unfold ret.
  destruct (Z.eqb_spec (stdout_level g - 1) 0); [lia | reflexivity].
Qed.

Lemma stdout_close_outer g :
  stdout_level g = 1 ->
  stdout_close_struct g =
    Some (tt, add_out (set_stdout g 0 (u32 (stdout_lines g + 1)))
                      [StdoutNewline]).
Proof.
  intros H. unfold stdout_close_struct, bind, get, assert. rewrite H.
  reflexivity.
Qed.

Lemma stdout_engines_footer_out k es t lines w h g :
  output_mode g = STDOUT -> stdout_level g = 2 ->
  print_engines_footer k es t lines w h g =
    Some (lines, add_out (set_stdout g 0 (u32 (stdout_lines g + 1)))
                         [StdoutNewline]).
Proof.
  intros Hm Hl. unfold print_engines_footer, bind, get. rewrite Hm.
  cbn [pops_of close_struct stdout_pops mode_eqb].
  rewrite stdout_close_inner by lia. rewrite Hl.
  rewrite stdout_close_outer by reflexivity. reflexivity.
Qed.

Lemma stdout_print_engines_out k es t lines w h g :
  output_mode g = STDOUT -> class_view g = false -> stdout_level g = 1 ->
  stdout_lines g + 1 < 2 ^ 32 -> 0 <= stdout_lines g -> lines < h ->
  has_engine_counters es = true ->
  print_engines k es t lines w h g =
    Some ((lines, es),
          add_out (set_stdout g 0 (stdout_lines g + 1))
            (flat_map (stdout_group_events (pass_mode (stdout_lines g)))
               (map (fun e => engine_group e t)
                    (filter (fun e => negb (num_counters e =? 0))
                            (engine_tab es)))
             ++ [StdoutNewline])).
Proof.
  intros Hm Hv Hlv Hn H0 Hl He. unfold print_engines.
  unfold bind at 1, get. rewrite Hv. unfold bind at 1, ret at 1.
  unfold print_engines_header. unfold bind at 1.
  rewrite stdout_engines_header_out by (auto; lia). rewrite Hlv.
  unfold bind at 1.
  rewrite stdout_engine_rows_out by (auto; cbn; lia).
  unfold bind at 1.
  rewrite stdout_engines_footer_out by (auto; reflexivity).
  unfold ret.
  assert (U : u32 (stdout_lines g + 1) = stdout_lines g + 1)
    by (unfold u32; apply Z.mod_small; lia).
  cbn [stdout_lines add_out set_stdout out]. rewrite U.
  unfold add_out, set_stdout; cbn. rewrite <- app_assoc. reflexivity.
Qed.

(** One pass of the loop [while (!consumed)] prints one row and its
    newline, and counts it. *)
Lemma stdout_pass_out fuel k card codename es t lines w h g :
  output_mode g = STDOUT -> class_view g = false -> stdout_level g = 0 ->
  stdout_lines g + 1 < 2 ^ 32 -> 0 <= stdout_lines g -> lines < h ->
  has_engine_counters es = true ->
  print_passes (S fuel) k card codename es t lines w h g =
    let g' := add_out (set_stdout g 0 (stdout_lines g + 1))
                (stdout_row es t (pass_mode (stdout_lines g))
                 ++ [StdoutNewline]) in
    if pass_mode (stdout_lines g) =? 0 then Some (Some es, g')
    else print_passes fuel k card codename es t lines w h g'.
Proof.
  intros Hm Hv Hlv Hn H0 Hl He. cbn [print_passes].
  unfold bind at 1. rewrite stdout_print_header_out by auto.
  unfold bind at 1.
  rewrite stdout_print_imc_out by (auto; cbn; lia).
  unfold bind at 1.
  rewrite stdout_print_engines_out by (auto; cbn; lia).
  cbn [stdout_lines add_out set_stdout]. cbv zeta.
  rewrite !add_out_app, set_stdout_add_out, set_stdout_twice, !add_out_app.
  unfold stdout_row, sample_groups.
  rewrite !flat_map_app, <- !app_assoc.
  destruct (pass_mode (stdout_lines g) =? 0); reflexivity.
Qed.


Lemma lines_at_facts i :
  0 <= i ->
  (i mod 18 = 0 -> lines_at i mod 20 = 0 /\ lines_at (i + 1) = lines_at i + 3)
  /\ (i mod 18 <> 0 ->
      2 <= lines_at i mod 20 /\ lines_at (i + 1) = lines_at i + 1)
  /\ 0 <= lines_at i <= 22 + 2 * i.
Proof.
  intros Hi. unfold lines_at.
  pose proof (Z.div_mod i 18 ltac:(lia)) as D.
  pose proof (Z.mod_pos_bound i 18 ltac:(lia)) as B.
  set (q := i / 18) in *. set (r := i mod 18) in *.
  assert (Hq : 0 <= q) by (unfold q; apply Z.div_pos; lia).
  assert (E1 : (i + 17) / 18 = q + (if r =? 0 then 0 else 1)).
  { destruct (Z.eqb_spec r 0).
    - symmetry; apply (Z.div_unique (i + 17) 18 (q + 0) 17); lia.
    - symmetry; apply (Z.div_unique (i + 17) 18 (q + 1) (r - 1)); lia. }
  assert (E2 : (i + 1 + 17) / 18 = q + 1).
  { symmetry; apply (Z.div_unique (i + 1 + 17) 18 (q + 1) r); lia. }
  rewrite E1, E2.
  repeat split.
  - destruct (Z.eqb_spec r 0); [| contradiction].
    symmetry; apply (Z.mod_unique _ 20 (q + 1) 0); lia.
  - destruct (Z.eqb_spec r 0); lia.
  - destruct (Z.eqb_spec r 0); [contradiction |].
    rewrite <- (Z.mod_unique (20 + i + 2 * (q + 1)) 20 (q + 1) (r + 2)); lia.
  - destruct (Z.eqb_spec r 0); [contradiction | lia].
  - destruct (Z.eqb_spec r 0); lia.
  - destruct (Z.eqb_spec r 0); lia.
Qed.

Lemma pass_mode_cases l :
  (l mod 20 = 0 -> pass_mode l = 1 /\ pass_mode (l + 1) = 2
                   /\ pass_mode (l + 1 + 1) = 0) /\
  (2 <= l mod 20 -> pass_mode l = 0).
Proof.
  unfold pass_mode. split.
  - intros H.
    assert (H1 : (l + 1) mod 20 = 1).
    { symmetry; apply (Z.mod_unique _ 20 (l / 20) 1); [lia |].
      pose proof (Z.div_mod l 20 ltac:(lia)). lia. }
    assert (H2 : (l + 1 + 1) mod 20 = 2).
    { symmetry; apply (Z.mod_unique _ 20 (l / 20) 2); [lia |].
      pose proof (Z.div_mod l 20 ltac:(lia)). lia. }
    rewrite H, H1, H2. repeat split; reflexivity.
  - intros H.
    destruct (Z.eqb_spec (l mod 20) 0); [lia |].
    destruct (Z.eqb_spec (l mod 20) 1); [lia | reflexivity].
Qed.

(** The loop [while (!consumed)] for sample number [i]: three passes when
    the header rows are due, one otherwise. *)
Lemma stdout_tick_out k card codename es t i g :
  output_mode g = STDOUT -> class_view g = false -> stdout_level g = 0 ->
  stdout_lines g = lines_at i -> 0 <= i < 2 ^ 30 ->
  has_engine_counters es = true ->
  print_passes 3 k card codename es t 0 INT_MAX INT_MAX g =
    Some (Some es,
          add_out (set_stdout g 0 (lines_at (i + 1)))
                  (stdout_sample_rows (i mod 18 =? 0) es t)).
Proof.
  intros Hm Hv Hlv Hln Hi He.
  destruct (lines_at_facts i ltac:(lia)) as (F0 & F1 & FB).
  assert (HI : 0 < INT_MAX) by (vm_compute; reflexivity).
  destruct (Z.eqb_spec (i mod 18) 0) as [E | E].
  - destruct (F0 E) as [M N].
    destruct (proj1 (pass_mode_cases (lines_at i)) M) as (P1 & P2 & P3).
    rewrite stdout_pass_out by (auto; lia). cbv zeta.
    rewrite Hln, P1. cbn [Z.eqb].
    rewrite stdout_pass_out by (auto; cbn; lia). cbv zeta.
    cbn [stdout_lines set_stdout add_out]. rewrite P2. cbn [Z.eqb].
    rewrite stdout_pass_out by (auto; cbn; lia). cbv zeta.
    cbn [stdout_lines set_stdout add_out]. rewrite P3. cbn [Z.eqb].
    rewrite !set_stdout_add_out, !set_stdout_twice, !add_out_app.
    replace (lines_at i + 1 + 1 + 1) with (lines_at (i + 1)) by lia.
    unfold stdout_sample_rows. rewrite <- !app_assoc. reflexivity.
  - destruct (F1 E) as [M N].
    rewrite stdout_pass_out by (auto; lia). cbv zeta.
    rewrite Hln, (proj2 (pass_mode_cases (lines_at i)) M). cbn [Z.eqb].
    rewrite N. reflexivity.
Qed.

Lemma pmu_sample_tab k n es es' n' :
  pmu_sample k n es = Some (es', n') ->
  exists v, engine_tab es' = map (sample_engine v) (engine_tab es).
Proof.
  unfold pmu_sample. intros H.
  destruct (pmu_read_multi k n (fd es) _ _) as [[stamp v1] |];
    [| discriminate].
  exists v1.
  repeat match type of H with
         | context [if ?b then _ else _] => destruct b
         | context [match pmu_read_multi ?a ?b ?c ?d ?e with _ => _ end] =>
             destruct (pmu_read_multi a b c d e) as [[? ?] |]
         end; try discriminate; inversion H; reflexivity.
Qed.

Lemma pmu_sample_has_counters k n es es' n' :
  pmu_sample k n es = Some (es', n') ->
  has_engine_counters es' = has_engine_counters es.
Proof.
  intros H. destruct (pmu_sample_tab _ _ _ _ _ H) as (v & E).
  unfold has_engine_counters. rewrite E.
  generalize (engine_tab es) as tab.
  induction tab as [| e tab IH]; cbn [map existsb]; [reflexivity |].
  rewrite IH. reflexivity.
Qed.


Lemma stdout_items_events_kind grp h kind items : forall i,
  (h = 1 /\ kind = GroupNames) \/ (h = 2 /\ kind = Units)
  \/ (h = 0 /\ kind = Data) ->
  Forall (fun ev => event_kind ev = kind)
         (stdout_items_events grp i items h).
Proof.
  induction items as [| item items IH]; intros i Hk;
    cbn [stdout_items_events]; [constructor |].
  apply Forall_app; split; [| now apply IH].
  unfold stdout_item_events.
  destruct (it_pmu item) as [p |]; [| constructor].
  destruct (negb (present p)); [constructor |].
  destruct Hk as [[-> ->] | [[-> ->] | [-> ->]]]; cbn [Z.eqb Pos.eqb].
  - destruct (negb (i =? 0)%nat); repeat constructor.
  - repeat constructor.
  - repeat constructor.
Qed.

Lemma stdout_row_kind es t h kind :
  (h = 1 /\ kind = GroupNames) \/ (h = 2 /\ kind = Units)
  \/ (h = 0 /\ kind = Data) ->
  Forall (fun ev => event_kind ev = kind) (stdout_row es t h).
Proof.
  intros Hk. unfold stdout_row. apply Forall_flat_map, Forall_forall.
  intros grp _. unfold stdout_group_events.
  destruct (present_in_group grp =? 0); [constructor |].
  now apply stdout_items_events_kind.
Qed.

(** Runs the monadic operations on a state that is not known, leaving the
    accesses to its variables in place. *)
Ltac run_monad :=
  cbv beta iota zeta delta
    [bind do_sample get put emit ret observe_stop when terminal_size];
  cbn [set_view set_run set_stdout add_out stop_top output_mode observed
       reads out class_view stdout_level stdout_lines mode_eqb negb orb
       andb fst snd].

Lemma stdout_main_loop_out k card codename period_us : forall n i es w h g ess,
  output_mode g = STDOUT -> class_view g = false -> stop_top g = false ->
  stdout_level g = 0 -> stdout_lines g = lines_at i ->
  0 <= i -> i + Z.of_nat n < 2 ^ 30 ->
  (forall j, os_sigint k j = false) ->
  has_engine_counters es = true ->
  sampled k n (reads g) es = Some ess ->
  exists g' es',
    main_loop n k card codename period_us es w h g =
      Some ((LoopFuel, es'), g') /\
    out g' = (out g ++ stdout_trace 18 period_us i ess)%list.
Proof.
  induction n as [| n IH]; intros i es w h g ess Hm Hv Hs Hlv Hln Hi Hb Hsig
                                  He Hsam.
  - cbn in Hsam. inversion Hsam; subst ess.
    exists g, es. split; [reflexivity |]. cbn. now rewrite app_nil_r.
  - cbn [sampled] in Hsam.
    destruct (pmu_sample k (reads g) es) as [[es1 rd1] |] eqn:S1;
      [| discriminate].
    destruct (sampled k n rd1 es1) as [rest |] eqn:S2; [| discriminate].
    inversion Hsam; subst ess; clear Hsam.
    pose proof (pmu_sample_has_counters _ _ _ _ _ S1) as He1.
    rewrite He in He1.
    cbn [main_loop].
    repeat (progress (run_monad; rewrite ?Hs, ?Hm, ?Hsig, ?S1)).
    rewrite (stdout_tick_out k card codename es1 (sample_period es1) i)
      by (auto; lia).
    repeat (progress (run_monad; rewrite ?Hs, ?Hm, ?Hsig)).
    match goal with
    | |- exists g' es', main_loop n _ _ _ _ ?e ?w' ?h' ?g0 = _ /\ _ =>
        destruct (IH (i + 1) e w' h' g0 rest) as (g' & es' & E & O);
          try assumption; try reflexivity; try lia
    end.
    exists g', es'. split; [exact E |].
    rewrite O. cbn [out stdout_trace add_out set_run set_stdout].
    rewrite <- !app_assoc. reflexivity.
Qed.

(** C8 (as stated) fails: in the plain-text run of the example system over
    20 samples, the row of group names that opens the output is followed by
    the row of units and by 18 data rows, after which the two header rows
    come again. *)
Lemma header_rows_do_not_wait_20_data_rows :
  row_kinds (example_stdout_trace 20) =
    [GroupNames; Units] ++ repeat Data 18 ++ [GroupNames; Units; Data; Data]
  /\ ~ header_period 20 (row_kinds (example_stdout_trace 20)).
Proof.
  split; [vm_compute; reflexivity |].
  intros H. destruct (H 0%nat) as (_ & H2 & _); [vm_compute; reflexivity |].
  specialize (H2 18%nat). vm_compute in H2.
  assert (C : Some GroupNames = Some Data) by (apply H2; lia).
  discriminate C.
Qed.

(** C8 (amended). In plain-text mode, as long as no SIGINT arrives and the
    reads succeed, the main loop prints for each sample one data row, and
    before the data row of sample i the two header rows (group names, then
    units) exactly when i is a multiple of 18; every row is followed by
    exactly one newline.  The header rows thus come every 20 rows of
    output, and 18 data rows lie between two consecutive pairs of header
    rows. *)
Theorem stdout_header_rows_every_18_samples n k card codename period_us
  es w h g ess :
  output_mode g = STDOUT -> class_view g = false -> stop_top g = false ->
  stdout_level g = 0 -> stdout_lines g = STDOUT_HEADER_REPEAT ->
  (forall j, os_sigint k j = false) ->
  has_engine_counters es = true ->
  sampled k n (reads g) es = Some ess ->
  Z.of_nat n < 2 ^ 30 ->
  (exists g' es',
      main_loop n k card codename period_us es w h g =
        Some ((LoopFuel, es'), g') /\
      out g' = (out g ++ stdout_trace 18 period_us 0 ess)%list) /\
  (forall e t,
      Forall (fun ev => event_kind ev = GroupNames) (stdout_row e t 1) /\
      Forall (fun ev => event_kind ev = Units) (stdout_row e t 2) /\
      Forall (fun ev => event_kind ev = Data) (stdout_row e t 0)).
Proof.
  intros Hm Hv Hs Hlv Hln Hsig He Hsam Hn. split.
  - apply stdout_main_loop_out; auto; lia.
  - intros e t. repeat split; apply stdout_row_kind; tauto.
Qed.

Lemma stdout_header_rows_every_18_samples_witness :
  exists g' es',
    main_loop 20 example_os "card0" "Intel" 1000000 example_engines_sampled
              (-1) (-1)
              (set_run (globals0 STDOUT) false 0 1) =
      Some ((LoopFuel, es'), g') /\
    exists ess,
      sampled example_os 20 1 example_engines_sampled = Some ess /\
      out g' = ([] ++ stdout_trace 18 1000000 0 ess)%list.
Proof.
  destruct (sampled example_os 20 1 example_engines_sampled) as [ess |] eqn:S;
    [| vm_compute in S; discriminate].
  destruct (proj1 (stdout_header_rows_every_18_samples 20 example_os
                     "card0" "Intel" 1000000 example_engines_sampled
                     (-1) (-1) (set_run (globals0 STDOUT) false 0 1) ess
                     eq_refl eq_refl eq_refl eq_refl eq_refl
                     (fun _ => eq_refl) eq_refl S eq_refl))
    as (g' & es' & E & O).
  exists g', es'. split; [exact E |]. exists ess. split; [reflexivity | exact O].
Defined.


(** ** C7: initialisation with counters that do not open *)












Lemma prometheus_single_shot_witness :
  main 1 example_os PROMETHEUS 100000 "i915" "card0" "Intel" =
    Exited 0
      ([Sampled; Usleep 100000; Sampled]
         ++ prom_snapshot example_os example_engines_sampled2
              (sample_period example_engines_sampled2)
         ++ [PromEnd]).
Proof.
  apply (proj2 (prometheus_single_shot 0 example_os 100000 "i915" "card0"
                  "Intel" example_engines example_engines_init
                  example_engines_sampled example_engines_sampled2 1 2
                  ltac:(vm_compute; reflexivity)
                  ltac:(vm_compute; reflexivity)
                  ltac:(vm_compute; reflexivity)
                  ltac:(vm_compute; reflexivity)));
    reflexivity.
Defined.


(** ** C3, for whole runs *)







(** ** C1: the rate calculator *)

(** C1. [pmu_calc] on the pair (cur, prev) returns ((cur - prev) / d) / t * s
    computed in double arithmetic on the 64-bit difference, except that for
    s = 100 a result above 100 is replaced by exactly 100; hence for a
    percentage metric (s = 100) with prev <= cur, a positive finite divisor d
    and a positive finite wall-time delta t, the value lies in [0, 100]. *)
Theorem pmu_calc_rate_and_percentage_range :
  (forall p d t s,
      let raw := dmul (ddiv (ddiv (of_Z (u64 (cur p - prev p))) d) t) s in
      pmu_calc p d t s =
        if deqb s d100 && dltb d100 raw then d100 else raw) /\
  (forall p d t,
      0 <= prev p <= cur p -> cur p < 2 ^ 64 ->
      pos_finite d = true -> pos_finite t = true ->
      dleb dzero (pmu_calc p d t d100) = true /\
      dleb (pmu_calc p d t d100) d100 = true).
Proof.
  split; [reflexivity |].
  intros p d t [Hp Hle] Hc Hd Ht.
  assert (Hraw : nonneg
            (dmul (ddiv (ddiv (of_Z (u64 (cur p - prev p))) d) t) d100) = true).
  { apply SFmul_nonneg; [| reflexivity].
    apply SFdiv_nonneg; [| exact Ht].
    apply SFdiv_nonneg; [| exact Hd].
    apply binary_normalize_nonneg.
    unfold u64; apply Z.mod_pos_bound; lia. }
  unfold pmu_calc.
  change (deqb d100 d100) with true; cbv beta zeta; rewrite andb_true_l.
  destruct (dltb d100 _) eqn:E.
  - split; reflexivity.
  - split; [now apply dleb_zero_nonneg | now apply not_dltb_dleb].
Qed.

Lemma pmu_calc_rate_and_percentage_range_witness :
  let p := {| cur := 1100000000; prev := 0 |} in
  dleb dzero (pmu_calc p d1e9 d1 d100) = true /\
  dleb (pmu_calc p d1e9 d1 d100) d100 = true.
Proof.
  apply (proj2 pmu_calc_rate_and_percentage_range);
    simpl; try lia; reflexivity.
Defined.
